(** * Verification of the repository-replication pipeline of pycai

    The development embeds the source files of the pipeline:
    - [core/svn.py]                       ([Module SVNClient]),
    - [core/ioutil.py], two helpers       ([Module Ioutil]),
    - [modules/unity/repo_sync.py]        ([Module RepoSyncer]),
    - [modules/unity/sync_between_repos.py] ([Module SVNRepoSync]),
    together with the few functions of the Python library they call
    ([Module PyStr], [Module PosixPath]).

    Conventions.
    - A Python [str] is a [string]: a sequence of code points below 256.
    - [print] calls are not modelled: they change no control flow.
    - Everything outside the interpreter (the file system, the [svn]
      binary) is reached through a record [OS] of operations on an
      abstract world; the embedded code is a function of that record. *)

From Stdlib Require Import ZArith Ascii String List Bool Lia.
From stdpp Require Import base option list strings gmap pretty.

Local Open Scope Z_scope.

(** ** Python [str] methods and the regular expressions of the sources *)
Module PyStr.

(** The double quote, written by its code so that no literal has to
    escape it. *)
Definition dquote : ascii := "034"%char.
Definition q : string := String dquote "".

Definition is_digit (c : ascii) : bool :=
  let n := N_of_ascii c in ((48 <=? n) && (n <=? 57))%N.

Definition is_upper (c : ascii) : bool :=
  let n := N_of_ascii c in ((65 <=? n) && (n <=? 90))%N.

Definition is_lower (c : ascii) : bool :=
  let n := N_of_ascii c in ((97 <=? n) && (n <=? 122))%N.

(** [\w] on ASCII: letters, digits and the underscore.  The
    alphanumeric code points above 127, which [\w] also matches, are
    left out; the only use of this class is in a search whose result
    is never reached (see [parse_xml_never_yields_a_path]). *)
Definition is_word (c : ascii) : bool :=
  is_digit c || is_upper c || is_lower c || Ascii.eqb c "_".

(** [str.isspace] for one code point below 256. *)
Definition isspace (c : ascii) : bool :=
  let n := N_of_ascii c in
  (((9 <=? n) && (n <=? 13)) || ((28 <=? n) && (n <=? 32))
   || (n =? 133) || (n =? 160))%N.

Definition char_upper (c : ascii) : ascii :=
  if is_lower c then ascii_of_N (N_of_ascii c - 32) else c.

(** [s.upper()] *)
Fixpoint upper (s : string) : string :=
  match s with
  | "" => ""
  | String c s' => String (char_upper c) (upper s')
  end.

(** [s.startswith(p)] *)
Definition startswith (s p : string) : bool := String.prefix p s.

(** [s[n:]] *)
Fixpoint slice_from (n : nat) (s : string) : string :=
  match n, s with
  | O, _ => s
  | S n', String _ s' => slice_from n' s'
  | S _, "" => ""
  end.

(** [s[0]] as a one-character string, on a non-empty [s]. *)
Definition first_char (s : string) : string :=
  match s with
  | "" => ""
  | String c _ => String c ""
  end.

(** [s.split(sep)] for a one-character separator. *)
Fixpoint split (sep : ascii) (s : string) : list string :=
  match s with
  | "" => [""]
  | String c s' =>
      if Ascii.eqb c sep then "" :: split sep s'
      else match split sep s' with
           | h :: t => String c h :: t
           | [] => [String c ""]
           end
  end.

(** [s.lstrip()], [s.rstrip()], [s.strip()] *)
Fixpoint lstrip (s : string) : string :=
  match s with
  | "" => ""
  | String c s' => if isspace c then lstrip s' else s
  end.

Fixpoint rstrip (s : string) : string :=
  match s with
  | "" => ""
  | String c s' =>
      match rstrip s' with
      | "" => if isspace c then "" else String c ""
      | r => String c r
      end
  end.

Definition strip (s : string) : string := rstrip (lstrip s).

(** [s.lstrip('/')] *)
Fixpoint lstrip_char (x : ascii) (s : string) : string :=
  match s with
  | "" => ""
  | String c s' => if Ascii.eqb c x then lstrip_char x s' else s
  end.

(** The longest prefix of [s] whose characters satisfy [p], and the
    rest of [s]. *)
Fixpoint span (p : ascii -> bool) (s : string) : string * string :=
  match s with
  | "" => ("", "")
  | String c s' =>
      if p c then let '(a, b) := span p s' in (String c a, b)
      else ("", s)
  end.

(** [cut pat s]: the text before the first occurrence of [pat] in [s]
    and the text after it; [None] when [pat] does not occur. *)
Fixpoint cut (pat s : string) : option (string * string) :=
  if String.prefix pat s then Some ("", slice_from (String.length pat) s)
  else match s with
       | "" => None
       | String c s' =>
           match cut pat s' with
           | Some (pre, post) => Some (String c pre, post)
           | None => None
           end
       end.

(** [re.match(r'^r(\d+)', line)]: group 1, or [None]. *)
Definition match_revision_line (line : string) : option string :=
  match line with
  | String "r" rest =>
      match span is_digit rest with
      | ("", _) => None
      | (digits, _) => Some digits
      end
  | _ => None
  end.

(** [re.search(NAME="(C+)", s)] for a character class [C] whose members
    are not the double quote: group 1 of the leftmost match.  The
    greedy run of class characters must be followed by the closing
    quote; a shorter run is followed by a class character, so only the
    longest run can match. *)
Definition attr_at (cls : ascii -> bool) (name s : string) : option string :=
  if String.prefix (name +:+ "=" +:+ q) s then
    match span cls (slice_from (String.length (name +:+ "=" +:+ q)) s) with
    | ("", _) => None
    | (v, rest) => if String.prefix q rest then Some v else None
    end
  else None.

Fixpoint search_attr (cls : ascii -> bool) (name s : string) : option string :=
  match attr_at cls name s with
  | Some v => Some v
  | None =>
      match s with
      | "" => None
      | String _ s' => search_attr cls name s'
      end
  end.

(** [re.search(OPEN(.*?)CLOSE, s, re.DOTALL)]: group 1. *)
Definition search_between (open close s : string) : option string :=
  match cut open s with
  | None => None
  | Some (_, s1) =>
      match cut close s1 with
      | None => None
      | Some (body, _) => Some body
      end
  end.

(** [re.findall(OPEN.*?>(.*?)CLOSE, s, re.DOTALL)]: the list of the
    group 1 of the successive matches.  Each match is at least one
    character long, so [String.length s] rounds are enough. *)
Fixpoint findall_elements_go (fuel : nat) (open close s : string) : list string :=
  match fuel with
  | O => []
  | S fuel' =>
      match cut open s with
      | None => []
      | Some (_, s1) =>
          match cut ">" s1 with
          | None => []
          | Some (_, s2) =>
              match cut close s2 with
              | None => []
              | Some (body, s3) => body :: findall_elements_go fuel' open close s3
              end
          end
      end
  end.

Definition findall_elements (open close s : string) : list string :=
  findall_elements_go (String.length s) open close s.

Definition has_newline (s : string) : bool :=
  match cut (String "010"%char "") s with Some _ => true | None => false end.

(** [re.search(r">(.*?)</path>", s)]: group 1.  Without [re.DOTALL]
    the dot does not match a line feed. *)
Fixpoint search_gt_path (s : string) : option string :=
  match s with
  | "" => None
  | String c s' =>
      if Ascii.eqb c ">" then
        match cut "</path>" s' with
        | Some (body, _) =>
            if has_newline body then search_gt_path s' else Some body
        | None => search_gt_path s'
        end
      else search_gt_path s'
  end.

(** [str(n)] for an [int] *)
Definition str_of_int (n : Z) : string := pretty n.

(** A string of decimal digits only. *)
Fixpoint all_digits (s : string) : bool :=
  match s with
  | "" => true
  | String c s' => is_digit c && all_digits s'
  end.

(** An optional string that, when present, is a non-empty string of
    digits. *)
Definition digits_or_none (o : option string) : Prop :=
  forall r, o = Some r -> r <> "" /\ all_digits r = true.

End PyStr.

(** ** [os.path] on POSIX *)
Module PosixPath.
Import PyStr.

Definition endswith_slash (s : string) : bool :=
  match String.rev s with
  | String "/" _ => true
  | _ => false
  end.

(** [os.path.join(a, b)] *)
Definition join (a b : string) : string :=
  if startswith b "/" then b
  else if String.eqb a "" || endswith_slash a then a +:+ b
  else a +:+ "/" +:+ b.

(** [p[:p.rfind('/') + 1]] *)
Fixpoint head_upto_slash (p : string) : string :=
  match p with
  | "" => ""
  | String c p' =>
      match head_upto_slash p' with
      | "" => if Ascii.eqb c "/" then "/" else ""
      | h => String c h
      end
  end.

Fixpoint all_slashes (s : string) : bool :=
  match s with
  | "" => true
  | String c s' => Ascii.eqb c "/" && all_slashes s'
  end.

(** [s.rstrip('/')] *)
Fixpoint rstrip_slash (s : string) : string :=
  match s with
  | "" => ""
  | String c s' =>
      match rstrip_slash s' with
      | "" => if Ascii.eqb c "/" then "" else String c ""
      | r => String c r
      end
  end.

(** [os.path.dirname(p)] *)
Definition dirname (p : string) : string :=
  let head := head_upto_slash p in
  if negb (String.eqb head "") && negb (all_slashes head)
  then rstrip_slash head else head.

End PosixPath.

(** ** Exceptions, the outside world and the effect monad *)
Module Eff.

(** The exceptions the sources can meet.  All of them are subclasses
    of [Exception]; [FileNotFoundError] is kept apart from the other
    [OSError]s because one handler catches it alone. *)
Inductive exn : Type :=
| FileNotFoundError
| OSError (what : string)
| AttributeError
| Exception (msg : string).

Inductive Res (A : Type) : Type :=
| Ok (a : A)
| Raise (e : exn).
Arguments Ok {A} a.
Arguments Raise {A} e.

(** What a finished child process leaves behind. *)
Record CompletedProcess : Type :=
  { returncode : Z; stdout : string; stderr : string }.

(** One child process: its argument vector, its working directory and
    the variables added to the inherited environment. *)
Record Call : Type :=
  { argv : list string; cwd : option string; env : list (string * string) }.

(** The second element of the argument vector: the verb. *)
Definition verb_of (c : Call) : string := nth 1 (argv c) "".

(** The operating system, over a world [W] of its own.  Every
    operation may raise and may change the world even when it does. *)
Record OS (W : Type) : Type :=
  { spawn : Call -> W -> Res CompletedProcess * W;
    path_exists : string -> W -> bool;
    makedirs : string -> bool -> W -> Res unit * W;
    copy2 : string -> string -> W -> Res unit * W;
    write_text : string -> string -> W -> Res unit * W }.
Arguments spawn {W} _ _ _.
Arguments path_exists {W} _ _ _.
Arguments makedirs {W} _ _ _ _.
Arguments copy2 {W} _ _ _ _.
Arguments write_text {W} _ _ _ _.

(** The state threaded through a run: the world, and the record of
    every attempt to start a child process so far (oldest first).  An
    attempt is recorded whether or not the process could be started. *)
Record St (W : Type) : Type := { world : W; calls : list Call }.
Arguments world {W} _.
Arguments calls {W} _.
Arguments Build_St {W} _ _.

(** [issued st st' cs]: going from [st] to [st'] made exactly the
  attempts [cs] to start a child process, in this order. *)
Definition issued {W : Type} (st st' : St W) (cs : list Call) : Prop :=
calls st' = calls st ++ cs.

(** The state after a child process [c] that left the world [w]. *)
Definition after {W : Type} (st : St W) (c : Call) (w : W) : St W :=
{| world := w; calls := calls st ++ [c] |}.

Definition M (W A : Type) : Type := St W -> Res A * St W.

Section Monad.
Context {W : Type}.

Definition ret {A} (a : A) : M W A := fun st => (Ok a, st).

Definition raise {A} (e : exn) : M W A := fun st => (Raise e, st).

Definition bind {A B} (m : M W A) (k : A -> M W B) : M W B :=
    fun st =>
      match m st with
      | (Ok a, st') => k a st'
      | (Raise e, st') => (Raise e, st')
      end.

  (** [try: m  except Exception as e: h e] *)
Definition try_except {A} (m : M W A) (h : exn -> M W A) : M W A :=
    fun st =>
      match m st with
      | (Ok a, st') => (Ok a, st')
      | (Raise e, st') => h e st'
      end.

  (** [for x in xs: acc = body acc x] *)
Fixpoint for_each {A B} (body : B -> A -> M W B) (xs : list A) (acc : B) : M W B :=
    match xs with
    | [] => ret acc
    | x :: xs' => bind (body acc x) (for_each body xs')
    end.

  (** Lifting of the operations of the system. *)
Definition lift_os {A} (op : W -> Res A * W) : M W A :=
    fun st =>
      let '(r, w) := op (world st) in
      (r, {| world := w; calls := calls st |}).

Definition run_process (os : OS W) (c : Call) : M W CompletedProcess :=
    fun st =>
      let '(r, w) := spawn os c (world st) in
      (r, {| world := w; calls := calls st ++ [c] |}).

Definition exists_ (os : OS W) (p : string) : M W bool :=
    fun st => (Ok (path_exists os p (world st)), st).

End Monad.

Declare Scope eff_scope.
Delimit Scope eff_scope with eff.
Notation "'let*' x ':=' m 'in' k" := (bind m (fun x => k))
  (at level 10, x pattern, m at level 100, k at level 200) : eff_scope.
Notation "m ';;' k" := (bind m (fun _ => k))
  (at level 100, k at level 200, right associativity) : eff_scope.

End Eff.

(** ** [core/svn.py] *)
Module SVNClient.
Import PyStr Eff.
Local Open Scope eff_scope.

Record t : Type :=
  { working_dir : string;
    username : option string;
    password : option string }.

(** Truth value of an [Optional[str]]. *)
Definition truthy (o : option string) : bool :=
  match o with
  | Some s => negb (String.eqb s "")
  | None => false
  end.

Definition text (o : option string) : string := default "" o.

Section Methods.
Context {W : Type} (os : OS W) (self : t).

Definition _run_command (command : list string) : M W (string * string * Z) :=
    let command :=
      if truthy (username self)
      then command ++ ["--username"; text (username self)] else command in
    let command :=
      if truthy (password self)
      then command ++ ["--password"; text (password self)] else command in
    let* process := run_process os
      {| argv := command; cwd := Some (working_dir self); env := [] |} in
    ret (strip (stdout process), strip (stderr process), returncode process).

Definition checkout (url : string) (path : option string) : M W bool :=
    let command := ["svn"; "checkout"; url] in
    let command := if truthy path then command ++ [text path] else command in
    let* (_, _, code) := _run_command command in
    ret (code =? 0).

Definition update (path : option string) : M W bool :=
    let command := ["svn"; "update"] in
    let command := if truthy path then command ++ [text path] else command in
    let* (_, _, code) := _run_command command in
    ret (code =? 0).

Definition commit (message : string) (paths : option (list string)) : M W bool :=
    let command := ["svn"; "commit"; "-m"; message] in
    let command :=
      match paths with
      | Some (p :: ps) => command ++ (p :: ps)
      | _ => command
      end in
    let* (_, _, code) := _run_command command in
    ret (code =? 0).

Definition add (paths : list string) : M W bool :=
    let command := ["svn"; "add"] ++ paths in
    let* (_, _, code) := _run_command command in
    ret (code =? 0).

Definition delete (paths : list string) (force : bool) : M W bool :=
    let command := ["svn"; "delete"] in
    let command := if force then command ++ ["--force"] else command in
    let command := command ++ paths in
    let* (_, _, code) := _run_command command in
    ret (code =? 0).

Definition status (path : option string) : M W string :=
    let command := ["svn"; "status"] in
    let command := if truthy path then command ++ [text path] else command in
    let* (out, _, _) := _run_command command in
    ret out.

Definition log (limit : option Z) (path : option string) : M W string :=
    let command := ["svn"; "log"] in
    let command :=
      match limit with
      | Some n => if n =? 0 then command else command ++ ["-l"; str_of_int n]
      | None => command
      end in
    let command := if truthy path then command ++ [text path] else command in
    let* (out, _, _) := _run_command command in
    ret out.

Definition diff (path revision : option string) : M W string :=
    let command := ["svn"; "diff"] in
    let command :=
      if truthy revision then command ++ ["-r"; text revision] else command in
    let command := if truthy path then command ++ [text path] else command in
    let* (out, _, _) := _run_command command in
    ret out.

Definition revert (paths : list string) (recursive : bool) : M W bool :=
    let command := ["svn"; "revert"] in
    let command := if recursive then command ++ ["-R"] else command in
    let command := command ++ paths in
    let* (_, _, code) := _run_command command in
    ret (code =? 0).

Definition cleanup : M W bool :=
    let command := ["svn"; "cleanup"] in
    let* (_, _, code) := _run_command command in
    ret (code =? 0).

Definition info (path : option string) : M W string :=
    let command := ["svn"; "info"] in
    let command := if truthy path then command ++ [text path] else command in
    let* (out, _, _) := _run_command command in
    ret out.

Definition list_files (url : option string) : M W string :=
    let command := ["svn"; "list"] in
    let command := if truthy url then command ++ [text url] else command in
    let* (out, _, _) := _run_command command in
    ret out.

End Methods.

(** One call of a method of the client, with its arguments. *)
Inductive Invocation : Type :=
| Checkout (url : string) (path : option string)
| Update (path : option string)
| Commit (message : string) (paths : option (list string))
| Add (paths : list string)
| Delete (paths : list string) (force : bool)
| Status (path : option string)
| Log (limit : option Z) (path : option string)
| Diff (path revision : option string)
| Revert (paths : list string) (recursive : bool)
| Cleanup
| Info (path : option string)
| ListFiles (url : option string).

(** The value a method returns: a [bool] or a [str]. *)
Definition invoke {W : Type} (os : OS W) (self : t) (i : Invocation)
  : M W (bool + string) :=
  match i with
  | Checkout url path => let* b := checkout os self url path in ret (inl b)
  | Update path => let* b := update os self path in ret (inl b)
  | Commit message paths => let* b := commit os self message paths in ret (inl b)
  | Add paths => let* b := add os self paths in ret (inl b)
  | Delete paths force => let* b := delete os self paths force in ret (inl b)
  | Status path => let* s := status os self path in ret (inr s)
  | Log limit path => let* s := log os self limit path in ret (inr s)
  | Diff path revision => let* s := diff os self path revision in ret (inr s)
  | Revert paths recursive => let* b := revert os self paths recursive in ret (inl b)
  | Cleanup => let* b := cleanup os self in ret (inl b)
  | Info path => let* s := info os self path in ret (inr s)
  | ListFiles url => let* s := list_files os self url in ret (inr s)
  end.

(** An optional argument, present when it is truthy. *)
Definition optional (o : option string) : list string :=
  match o with
  | Some s => if String.eqb s "" then [] else [s]
  | None => []
  end.

Definition flag (b : bool) (name : string) : list string :=
  if b then [name] else [].

(** The verb, its options and its paths, as the documentation of each
    method gives them: what the command line is before any
    credential. *)
Definition verb_arguments (i : Invocation) : list string :=
  match i with
  | Checkout url path => "svn" :: "checkout" :: url :: optional path
  | Update path => "svn" :: "update" :: optional path
  | Commit message paths => "svn" :: "commit" :: "-m" :: message :: default [] paths
  | Add paths => "svn" :: "add" :: paths
  | Delete paths force => "svn" :: "delete" :: flag force "--force" ++ paths
  | Status path => "svn" :: "status" :: optional path
  | Log limit path =>
      "svn" :: "log"
      :: match limit with
         | Some n => if decide (n = 0) then [] else ["-l"; str_of_int n]
         | None => []
         end
      ++ optional path
  | Diff path revision =>
      "svn" :: "diff"
      :: match optional revision with [] => [] | r :: _ => ["-r"; r] end
      ++ optional path
  | Revert paths recursive => "svn" :: "revert" :: flag recursive "-R" ++ paths
  | Cleanup => ["svn"; "cleanup"]
  | Info path => "svn" :: "info" :: optional path
  | ListFiles url => "svn" :: "list" :: optional url
  end.

(** The credential arguments of a client, and the child process a
    method starts for a command. *)
Definition credentials (self : t) : list string :=
  (if truthy (username self) then ["--username"; text (username self)] else [])
  ++ (if truthy (password self) then ["--password"; text (password self)] else []).

Definition call_of (self : t) (command : list string) : Call :=
  {| argv := command ++ credentials self;
     cwd := Some (working_dir self);
     env := [] |}.

(** The methods that return the captured output, as against those
    that return whether the exit status is 0. *)
Definition returns_text (i : Invocation) : bool :=
  match i with
  | Status _ | Log _ _ | Diff _ _ | Info _ | ListFiles _ => true
  | _ => false
  end.

Definition result_of (i : Invocation) (cp : CompletedProcess) : bool + string :=
  if returns_text i then inr (strip (stdout cp)) else inl (returncode cp =? 0).

Definition create_client (working_dir : string)
    (username password : option string) : t :=
  {| working_dir := working_dir; username := username; password := password |}.

End SVNClient.

(** ** [core/ioutil.py] (the two helpers the pipeline uses) *)
Module Ioutil.
Import Eff.
Local Open Scope eff_scope.

Section Helpers.
Context {W : Type} (os : OS W).

Definition ensure_dir (path : string) : M W unit :=
    let* present := exists_ os path in
    if negb present then lift_os (makedirs os path false) else ret tt.

Definition copy_file (src dst : string) : M W unit :=
    lift_os (copy2 os src dst).

End Helpers.
End Ioutil.

(** ** [modules/unity/repo_sync.py] *)
Module RepoSyncer.
Import PyStr PosixPath Eff.
Local Open Scope eff_scope.

(** One entry of the list [parse_log_entry] returns.  The revision is
    [None] for Python's [None]. *)
Record Change : Type :=
  { revision : option string; action : string; path : string }.

Record t : Type :=
  { repo1 : SVNClient.t;
    repo2 : SVNClient.t;
    repo1_path : string;
    repo2_path : string }.

Definition __init__ (repo1_path repo2_path : string)
    (username password : option string) : t :=
  {| repo1 := SVNClient.create_client repo1_path username password;
     repo2 := SVNClient.create_client repo2_path username password;
     repo1_path := repo1_path;
     repo2_path := repo2_path |}.

Definition line_feed : ascii := "010"%char.

(** The body of the loop of [parse_log_entry], on the pair of its two
    local variables. *)
Definition parse_line (vars : list Change * option string) (line : string)
  : list Change * option string :=
  let '(changes, current_revision) := vars in
  match match_revision_line line with
  | Some digits => (changes, Some digits)
  | None =>
      if startswith line "A " || startswith line "M " || startswith line "D "
      then
        let action := first_char line in
        let path := strip (slice_from 2 line) in
        (changes ++ [{| revision := current_revision;
                        action := action;
                        path := path |}],
         current_revision)
      else (changes, current_revision)
  end.

Definition parse_log_entry (log_output : string) : list Change :=
  fst (fold_left parse_line (split line_feed log_output) ([], None)).

Section Methods.
Context {W : Type} (os : OS W) (self : t).

Definition update_repos : M W bool :=
    let* ok := SVNClient.update os (repo1 self) None in
    if ok then SVNClient.update os (repo2 self) None else ret false.

  (** The body of the loop of [sync_changes]; the accumulator is the
      list [files_to_commit]. *)
Definition replay_change (files_to_commit : list string) (change : Change)
    : M W (list string) :=
    let src_path := join (repo1_path self) (path change) in
    let dst_path := join (repo2_path self) (path change) in
    if String.eqb (action change) "A" || String.eqb (action change) "M" then
      let dst_dir := dirname dst_path in
      Ioutil.ensure_dir os dst_dir ;;
      Ioutil.copy_file os src_path dst_path ;;
      (if String.eqb (action change) "A"
       then (SVNClient.add os (repo2 self) [dst_path] ;; ret tt)
       else ret tt) ;;
      ret (files_to_commit ++ [dst_path])
    else if String.eqb (action change) "D" then
      let* present := exists_ os dst_path in
      if present then
        SVNClient.delete os (repo2 self) [dst_path] false ;;
        ret (files_to_commit ++ [dst_path])
      else ret files_to_commit
    else ret files_to_commit.

Definition commit_message : string := "Synced changes from repo1".

  (** The body of the [try] block of [sync_changes]. *)
Definition sync_changes_body : M W bool :=
    let* log_output := SVNClient.log os (repo1 self) (Some 100) None in
    let changes := parse_log_entry log_output in
    let* files_to_commit := for_each replay_change changes [] in
    match files_to_commit with
    | _ :: _ =>
        SVNClient.commit os (repo2 self) commit_message (Some files_to_commit)
    | [] => ret true
    end.

Definition sync_changes : M W bool :=
    try_except sync_changes_body (fun _ => ret false).

End Methods.

(** The child processes of a run, by stage. *)
Definition update_call (client : SVNClient.t) : Call :=
  SVNClient.call_of client ["svn"; "update"].

Definition log_call (self : t) : Call :=
  SVNClient.call_of (repo1 self) ["svn"; "log"; "-l"; "100"].

Definition add_call (self : t) (dst_path : string) : Call :=
  SVNClient.call_of (repo2 self) ["svn"; "add"; dst_path].

Definition delete_call (self : t) (dst_path : string) : Call :=
  SVNClient.call_of (repo2 self) ["svn"; "delete"; dst_path].

Definition commit_call (self : t) (files_to_commit : list string) : Call :=
  SVNClient.call_of (repo2 self)
    (["svn"; "commit"; "-m"; commit_message] ++ files_to_commit).

(** The action letters the line parser keeps. *)
Definition known_action (c : Change) : Prop :=
action c = "A" \/ action c = "M" \/ action c = "D".

(** The verbs of the replay loop, and those of a whole run. *)
Definition add_or_delete (c : Call) : Prop :=
verb_of c = "add" \/ verb_of c = "delete".

Definition pipeline_verb (c : Call) : Prop :=
verb_of c = "update" \/ verb_of c = "log" \/ verb_of c = "add"
\/ verb_of c = "delete" \/ verb_of c = "commit".

(** The lines the parser turns into records. *)
Definition is_change_line (line : string) : bool :=
  startswith line "A " || startswith line "M " || startswith line "D ".

(** The destination of a record in the target working copy. *)
Definition target (self : t) (c : Change) : string :=
  join (repo2_path self) (path c).

(** What [main] prints last. *)
Inductive Outcome : Type :=
| FailedToUpdate
| SyncedOk
| FailedToSync.

(** [main], with the four placeholder values of its first lines as
    arguments. *)
Definition main {W : Type} (os : OS W) (repo1_path repo2_path : string)
    (username password : option string) : M W Outcome :=
  let syncer := __init__ repo1_path repo2_path username password in
  let* updated := update_repos os syncer in
  if negb updated then ret FailedToUpdate
  else
    let* synced := sync_changes os syncer in
    if synced then ret SyncedOk else ret FailedToSync.

End RepoSyncer.

(** ** [modules/unity/sync_between_repos.py] *)
Module SVNRepoSync.
Import PyStr PosixPath Eff.
Local Open Scope eff_scope.

Record ChangedPath : Type := { path : string; action : string }.

Record Commit : Type :=
  { revision : string; changed_paths : list ChangedPath }.

Record t : Type :=
  { repo1_url : string;
    repo2_path : string;
    username : string;
    password : string }.

Definition nonempty (s : string) : bool := negb (String.eqb s "").

(** The part of [get_recent_commits] after the child process: pure
    but for the [AttributeError] of [.group(1)] on a failed search. *)
Definition parse_path_entry (changed_paths : list ChangedPath)
    (path_entry : string) : Res (list ChangedPath) :=
  let action_match := search_attr is_word "action" path_entry in
  match search_gt_path path_entry with
  | None => Raise AttributeError
  | Some path_value =>
      match action_match with
      | Some token =>
          let action := upper token in
          Ok (changed_paths ++ [{| path := path_value; action := action |}])
      | None => Ok changed_paths
      end
  end.

Fixpoint parse_path_entries (changed_paths : list ChangedPath)
    (path_entries : list string) : Res (list ChangedPath) :=
  match path_entries with
  | [] => Ok changed_paths
  | path_entry :: rest =>
      match parse_path_entry changed_paths path_entry with
      | Ok changed_paths' => parse_path_entries changed_paths' rest
      | Raise e => Raise e
      end
  end.

Definition parse_block (commits : list Commit) (block : string)
  : Res (list Commit) :=
  match search_attr is_digit "revision" block with
  | Some revision =>
      let paths_block := search_between "<paths>" "</paths>" block in
      match
        match paths_block with
        | Some inner =>
            parse_path_entries [] (findall_elements "<path" "</path>" inner)
        | None => Ok []
        end
      with
      | Ok changed_paths =>
          Ok (commits ++ [{| revision := revision;
                             changed_paths := changed_paths |}])
      | Raise e => Raise e
      end
  | None => Ok commits
  end.

Fixpoint parse_blocks (commits : list Commit) (blocks : list string)
  : Res (list Commit) :=
  match blocks with
  | [] => Ok commits
  | block :: rest =>
      match parse_block commits block with
      | Ok commits' => parse_blocks commits' rest
      | Raise e => Raise e
      end
  end.

Definition parse_xml (stdout : string) : Res (list Commit) :=
  parse_blocks [] (findall_elements "<logentry" "</logentry>" stdout).

(** The child process [run_svn_command] starts. *)
Definition svn_call (self : t) (command : list string)
  (repo_path : option string) : Call :=
{| argv := "svn" :: command;
   cwd := repo_path;
   env := if nonempty (username self) && nonempty (password self)
             && SVNClient.truthy repo_path
          then [("SVN_USER", username self); ("SVN_PASSWORD", password self)]
          else [] |}.

(** The destination of a change in the target working copy. *)
Definition target_of (self : t) (change : ChangedPath) : string :=
join (repo2_path self) (lstrip_char "/" (path change)).

Definition known_action (change : ChangedPath) : Prop :=
action change = "ADD" \/ action change = "MODIFY"
\/ action change = "REPLACE" \/ action change = "DELETE".

Definition pipeline_verb (c : Call) : Prop :=
verb_of c = "update" \/ verb_of c = "log" \/ verb_of c = "cat"
\/ verb_of c = "delete" \/ verb_of c = "add" \/ verb_of c = "commit".

(** The child processes of the script, by stage. *)
Definition update_call (self : t) : Call :=
  svn_call self ["update"] (Some (repo2_path self)).

Definition log_call (self : t) : Call :=
  svn_call self ["log"; repo1_url self; "-l"; "100"; "--xml"]
    (Some (repo1_url self)).

Definition cat_call (self : t) (change : ChangedPath) : Call :=
  svn_call self ["cat"; join (repo1_url self) (path change)]
    (Some (repo1_url self)).

Definition add_call (self : t) : Call :=
  svn_call self ["add"; "--force"; "."] (Some (repo2_path self)).

Definition commit_call (self : t) (message : string) : Call :=
  svn_call self ["commit"; "-m"; message] (Some (repo2_path self)).

Section Methods.
Context {W : Type} (os : OS W) (self : t).

Definition run_svn_command (command : list string) (repo_path : option string)
    : M W (Z * string * string) :=
    let cmd := "svn" :: command in
    let env :=
      if nonempty (username self) && nonempty (password self)
         && SVNClient.truthy repo_path
      then [("SVN_USER", username self); ("SVN_PASSWORD", password self)]
      else [] in
    try_except
      (let* result :=
         run_process os {| argv := cmd; cwd := repo_path; env := env |} in
       ret (returncode result, stdout result, stderr result))
      (fun e =>
         match e with
         | FileNotFoundError => ret (1, "", "svn command not found")
         | _ => raise e
         end).

Definition update_repo (repo_path : string) : M W unit :=
    let* (return_code, _, stderr) :=
      run_svn_command ["update"] (Some repo_path) in
    if return_code =? 0 then ret tt
    else raise (Exception ("SVN update failed: " +:+ stderr)).

Definition get_recent_commits (repo_url : string) (limit : Z)
    : M W (list Commit) :=
    let* (return_code, stdout, _) :=
      run_svn_command ["log"; repo_url; "-l"; str_of_int limit; "--xml"]
        (Some repo_url) in
    if negb (return_code =? 0) then ret []
    else
      match parse_xml stdout with
      | Ok commits => ret commits
      | Raise e => raise e
      end.

Definition svn_delete (path : string) : M W unit :=
    try_except
      (let* (return_code, _, stderr) :=
         run_svn_command ["delete"; path; "--force"] (Some (repo2_path self)) in
       if negb (return_code =? 0)
       then raise (Exception ("SVN delete failed: " +:+ stderr))
       else ret tt)
      (fun e => raise e).

  (** The body of the inner loop of [sync_changes]. *)
Definition replay_change (_ : unit) (change : ChangedPath) : M W unit :=
    let repo1_path := join (repo1_url self) (path change) in
    let repo2_path := join (repo2_path self) (lstrip_char "/" (path change)) in
    let action := action change in
    if String.eqb action "ADD" || String.eqb action "MODIFY"
       || String.eqb action "REPLACE" then
      try_except
        (lift_os (makedirs os (dirname repo2_path) true) ;;
         let* (return_code, stdout, _) :=
           run_svn_command ["cat"; repo1_path] (Some (repo1_url self)) in
         if return_code =? 0
         then lift_os (write_text os repo2_path stdout)
         else ret tt)
        (fun _ => ret tt)
    else if String.eqb action "DELETE" then
      try_except
        (let* present := exists_ os repo2_path in
         if present then svn_delete repo2_path else ret tt)
        (fun _ => ret tt)
    else ret tt.

  (** The body of the outer loop. *)
Definition replay_commit (_ : unit) (commit : Commit) : M W unit :=
    for_each replay_change (changed_paths commit) tt.

Definition sync_changes (commits : list Commit) : M W unit :=
    for_each replay_commit commits tt.

Definition default_message : string := "Sync changes from repo1".

Definition commit_changes (message : string) : M W unit :=
    try_except
      (run_svn_command ["add"; "--force"; "."] (Some (repo2_path self)) ;;
       let* (return_code, _, stderr) :=
         run_svn_command ["commit"; "-m"; message] (Some (repo2_path self)) in
       if return_code =? 0 then ret tt
       else raise (Exception ("SVN commit failed: " +:+ stderr)))
      (fun e => raise e).

  (** The script under [if __name__ == '__main__'], for the instance
      [self] in place of the four placeholder values. *)
Definition script : M W unit :=
    update_repo (repo2_path self) ;;
    let* commits := get_recent_commits (repo1_url self) 100 in
    sync_changes commits ;;
    commit_changes default_message.

End Methods.
End SVNRepoSync.

(** ** An operating system in memory

  An instance of [OS] on which the pipelines can be run: a flat file
  system and an [svn] binary that answers each verb with a fixed
  reply, removes what [delete] names and prints a stored file on
  [cat].  The general theorems below hold for every [OS]; this one
  serves the end-to-end scenarios. *)
Module MemOS.
Import PyStr PosixPath Eff.

Record World : Type :=
  { files : gmap string string;
    dirs : gset string;
    svn_installed : bool;
    reply : string -> CompletedProcess }.

Definition done_ok : CompletedProcess :=
  {| returncode := 0; stdout := ""; stderr := "" |}.

Definition failed (err : string) : CompletedProcess :=
  {| returncode := 1; stdout := ""; stderr := err |}.

Definition with_files (w : World) (fs : gmap string string) : World :=
  {| files := fs; dirs := dirs w;
     svn_installed := svn_installed w; reply := reply w |}.

Definition with_dirs (w : World) (ds : gset string) : World :=
  {| files := files w; dirs := ds;
     svn_installed := svn_installed w; reply := reply w |}.

Definition is_file (w : World) (p : string) : bool :=
  bool_decide (is_Some (files w !! p)).

Definition is_dir (w : World) (p : string) : bool :=
  bool_decide (p ∈ dirs w).

Definition mem_exists (p : string) (w : World) : bool :=
  is_file w p || is_dir w p.

(** [p[p.rfind('/') + 1:]] *)
Definition basename (p : string) : string :=
  slice_from (String.length (head_upto_slash p)) p.

Fixpoint ancestors (fuel : nat) (p : string) : gset string :=
  match fuel with
  | O => ∅
  | S fuel' =>
      let d := dirname p in
      if String.eqb d "" || String.eqb d p then ∅
      else {[ d ]} ∪ ancestors fuel' d
  end.

Definition parent_ready (w : World) (p : string) : bool :=
  String.eqb (dirname p) "" || is_dir w (dirname p).

Definition mem_makedirs (p : string) (exist_ok : bool) (w : World)
  : Res unit * World :=
  if String.eqb p "" then (Raise FileNotFoundError, w)
  else if is_dir w p then
    (if exist_ok then Ok tt else Raise (OSError "FileExistsError"), w)
  else if is_file w p then (Raise (OSError "FileExistsError"), w)
  else (Ok tt, with_dirs w ({[ p ]} ∪ ancestors (String.length p) p ∪ dirs w)).

Definition mem_write (p content : string) (w : World) : Res unit * World :=
  if is_dir w p then (Raise (OSError "IsADirectoryError"), w)
  else if parent_ready w p then (Ok tt, with_files w (<[p := content]> (files w)))
  else (Raise FileNotFoundError, w).

Definition mem_copy2 (src dst : string) (w : World) : Res unit * World :=
  match files w !! src with
  | None =>
      (if is_dir w src then Raise (OSError "IsADirectoryError")
       else Raise FileNotFoundError, w)
  | Some content =>
      let target := if is_dir w dst then join dst (basename src) else dst in
      mem_write target content w
  end.

Definition remove_all (ps : list string) (w : World) : World :=
  with_files w (fold_left (fun fs p => base.delete p fs) ps (files w)).

Definition mem_spawn (c : Call) (w : World) : Res CompletedProcess * World :=
  if negb (svn_installed w) then (Raise FileNotFoundError, w)
  else
    match argv c with
    | "svn" :: "delete" :: args =>
        if returncode (reply w "delete") =? 0
        then (Ok (reply w "delete"), remove_all args w)
        else (Ok (reply w "delete"), w)
    | "svn" :: "cat" :: url :: _ =>
        match files w !! url with
        | Some content =>
            (Ok {| returncode := 0; stdout := content; stderr := "" |}, w)
        | None => (Ok (failed "E200009"), w)
        end
    | "svn" :: verb :: _ => (Ok (reply w verb), w)
    | _ => (Raise FileNotFoundError, w)
    end.

Definition os : OS World :=
  {| spawn := mem_spawn;
     path_exists := mem_exists;
     makedirs := mem_makedirs;
     copy2 := mem_copy2;
     write_text := mem_write |}.

Definition start (w : World) : St World := {| world := w; calls := [] |}.

End MemOS.


(** ** Scenarios: concrete logs and worlds *)
Module Scenarios.
Import PyStr Eff MemOS.

Definition lf : string := String "010"%char "".

Definition lines (ls : list string) : string :=
  match ls with
  | [] => ""
  | l :: rest => fold_left (fun text line => text +:+ lf +:+ line) rest l
  end.

(** A world with the given files, the directories [/], [/src] and
    [/dst], and the given replies of the [svn] binary. *)
Definition world_of (fs : gmap string string)
    (replies : string -> CompletedProcess) : World :=
  {| files := fs;
     dirs := {[ "/"; "/src"; "/dst" ]};
     svn_installed := true;
     reply := replies |}.

Definition printing (verb text : string) : string -> CompletedProcess :=
  fun v =>
    if String.eqb v verb
    then {| returncode := 0; stdout := text; stderr := "" |}
    else done_ok.

Definition failing (verb : string) : string -> CompletedProcess :=
  fun v => if String.eqb v verb then failed "E170013" else done_ok.

Definition syncer : RepoSyncer.t :=
  RepoSyncer.__init__ "/src" "/dst" (Some "u") (Some "p").

Definition xml_syncer : SVNRepoSync.t :=
  {| SVNRepoSync.repo1_url := "/src";
     SVNRepoSync.repo2_path := "/dst";
     SVNRepoSync.username := "u";
     SVNRepoSync.password := "p" |}.

(** The log of the end-to-end property of the specification. *)
Definition e2e_log : string :=
  lines ["r10"; "A foo/bar.txt"; "r11"; "M foo/bar.txt"; "r12"; "D baz.txt"].

(** An empty target; the source working copy holds [foo/bar.txt]. *)
Definition e2e_world : World :=
  world_of {[ "/src/foo/bar.txt" := "content at r11" ]} (printing "log" e2e_log).

(** A change line ahead of every revision marker. *)
Definition early_change_log : string := lines ["A foo.txt"; "r10"; "M bar.txt"].

(** A change line with an unknown action letter. *)
Definition unknown_action_log : string := lines ["r1"; "X foo.txt"].

(** Two additions, the first of a file the source does not hold. *)
Definition missing_then_present_log : string :=
  lines ["r1"; "A a.txt"; "A b.txt"].

Definition missing_then_present_world : World :=
  world_of {[ "/src/b.txt" := "b" ]} (printing "log" missing_then_present_log).

(** The log command exits with status 1 and prints nothing. *)
Definition log_fails_world : World :=
  world_of {[ "/src/a.txt" := "a" ]} (failing "log").

(** The update command exits with status 1. *)
Definition update_fails_world : World :=
world_of {[ "/src/a.txt" := "a" ]} (failing "update").

(** The commit command exits with status 1. *)
Definition commit_fails_world : World :=
  world_of {[ "/src/a.txt" := "a" ]}
    (fun v => if String.eqb v "commit" then failed "E160028"
              else printing "log" (lines ["r1"; "A a.txt"]) v).

(** The log is empty. *)
Definition empty_log_world : World :=
  world_of {[ "/src/a.txt" := "a" ]} (printing "log" "").

(** A source holding [x], a target that does not. *)
Definition x_world : World :=
  world_of {[ "/src/x" := "x" ]} (printing "log" "").

(** One log entry in XML with one path entry, its action in lower
    case. *)
Definition xml_log : string :=
  "<log><logentry revision=" +:+ q +:+ "7" +:+ q +:+ ">"
  +:+ "<msg>merge of revision=" +:+ q +:+ "6" +:+ q +:+ "</msg>"
  +:+ "<paths><path kind=" +:+ q +:+ "file" +:+ q
  +:+ " action=" +:+ q +:+ "add" +:+ q +:+ ">/a.txt</path></paths>"
  +:+ "</logentry></log>".

(** No [svn] binary on the machine. *)
Definition no_svn_world : World :=
  {| files := {[ "/src/a.txt" := "a" ]};
     dirs := {[ "/"; "/src"; "/dst" ]};
     svn_installed := false;
     reply := fun _ => done_ok |}.

(** [svn add] exits with status 1; the log names one addition. *)
Definition add_fails_world : World :=
  world_of {[ "/src/a.txt" := "a" ]}
    (fun v => if String.eqb v "add" then failed "E150002"
              else printing "log" (lines ["r1"; "A a.txt"]) v).

(** A log in XML whose entry has a revision in its body and no path. *)
Definition xml_no_paths_log : string :=
  "<log><logentry><msg>revision=" +:+ q +:+ "5" +:+ q +:+ "</msg></logentry></log>".

Definition xml_no_paths_world : World :=
  world_of {[ "/src/a.txt" := "a" ]} (printing "log" xml_no_paths_log).

(** [svn delete] refuses and exits with status 1, leaving the file
    where it is; the log names an addition of [x], then its delete. *)
Definition delete_refused_world : World :=
  world_of {[ "/src/x" := "x" ]}
    (fun v => if String.eqb v "delete" then failed "E195006"
              else printing "log" (lines ["r1"; "A x"; "r2"; "D x"]) v).

(** The system in memory, but for [svn update] in the directory [/dst],
    which exits with status 1. *)
Definition target_update_fails_os : OS World :=
  {| spawn := fun c w =>
       if String.eqb (verb_of c) "update" && bool_decide (cwd c = Some "/dst")
       then (Ok (failed "E155004"), w)
       else mem_spawn c w;
     path_exists := mem_exists;
     makedirs := mem_makedirs;
     copy2 := mem_copy2;
     write_text := mem_write |}.

End Scenarios.

(** * Properties *)

Import PyStr PosixPath Eff.
Local Open Scope eff_scope.

(** ** The effect monad *)

Ltac eff_unfold :=
  unfold bind, ret, raise, try_except, lift_os, run_process, exists_ in *.

(** ** Credentials on the command line *)
Section Credentials.
Context {W : Type} (os : OS W).
Import SVNClient.

Lemma truthy_Some (u : string) : u <> "" -> truthy (Some u) = true.
  Proof.
    intros Hu. unfold truthy. destruct (String.eqb_spec u ""); [contradiction | reflexivity].
  Qed.

Lemma run_command_calls (self : t) (command : list string) (st : St W) (u p : string) :
    username self = Some u -> u <> "" ->
    password self = Some p -> p <> "" ->
    calls (snd (_run_command os self command st))
    = calls st ++ [{| argv := command ++ ["--username"; u; "--password"; p];
                      cwd := Some (working_dir self); env := [] |}].
  Proof.
    intros Hu Hu' Hp Hp'. unfold _run_command. rewrite Hu, Hp.
    rewrite !truthy_Some by assumption. simpl. eff_unfold.
    rewrite <- app_assoc. simpl.
    destruct (spawn os _ (world st)) as [[cp|e] w]; reflexivity.
  Qed.

Lemma optional_spec (o : option string) (command : list string) :
    (if truthy o then command ++ [text o] else command) = command ++ optional o.
  Proof.
    destruct o as [s|]; simpl; [|by rewrite app_nil_r].
    destruct (String.eqb s ""); simpl; [by rewrite app_nil_r | reflexivity].
  Qed.

Lemma bind_calls {A B} (m : M W A) (k : A -> M W B) (st : St W) :
    (forall a st', calls (snd (k a st')) = calls st') ->
    calls (snd (bind m k st)) = calls (snd (m st)).
  Proof.
    intros Hk. unfold bind. destruct (m st) as [[a|e] st']; [apply Hk | reflexivity].
  Qed.

  (** C9.  With a non-empty user name and password configured, every
      method of the client starts exactly one child process, whose
      argument vector is the verb with its options and paths followed
      by [--username u --password p]: the credentials are the last four
      elements, for the read-only verbs as for the others. *)
Theorem credentials_trail_every_verb
      (self : t) (i : Invocation) (st : St W) (u p : string) :
    username self = Some u -> u <> "" ->
    password self = Some p -> p <> "" ->
    calls (snd (invoke os self i st))
    = calls st ++ [{| argv := verb_arguments i ++ ["--username"; u; "--password"; p];
                      cwd := Some (working_dir self); env := [] |}].
  Proof.
    intros Hu Hu' Hp Hp'.
    assert (Hrun : forall {B} command (k : string * string * Z -> M W B),
               (forall a st', calls (snd (k a st')) = calls st') ->
               calls (snd (bind (_run_command os self command) k st))
               = calls st ++ [{| argv := command ++ ["--username"; u; "--password"; p];
                                 cwd := Some (working_dir self); env := [] |}]).
    { intros B command k Hk. rewrite bind_calls by exact Hk.
      by apply run_command_calls. }
    destruct i; simpl; rewrite bind_calls by reflexivity.
    - unfold checkout. rewrite optional_spec. apply Hrun. by intros [[? ?] ?] ?.
    - unfold update. rewrite optional_spec. apply Hrun. by intros [[? ?] ?] ?.
    - unfold commit.
      replace (match paths with Some (p0 :: ps) => _ | _ => _ end)
        with (["svn"; "commit"; "-m"; message] ++ default [] paths)
        by (destruct paths as [[|? ?]|]; reflexivity).
      apply Hrun. by intros [[? ?] ?] ?.
    - unfold add. apply Hrun. by intros [[? ?] ?] ?.
    - unfold delete.
      replace ((if force then _ else _) ++ paths)
        with ("svn" :: "delete" :: flag force "--force" ++ paths)
        by (destruct force; reflexivity).
      apply Hrun. by intros [[? ?] ?] ?.
    - unfold status. rewrite optional_spec. apply Hrun. by intros [[? ?] ?] ?.
    - unfold log. rewrite optional_spec.
      replace (match limit with Some n => if n =? 0 then _ else _ | None => _ end
               ++ optional path)
        with (verb_arguments (Log limit path)).
      { apply Hrun. by intros [[? ?] ?] ?. }
      simpl. destruct limit as [n|]; [|reflexivity].
      destruct (Z.eqb_spec n 0); case_decide; try contradiction; reflexivity.
    - unfold diff. rewrite optional_spec.
      replace ((if truthy revision then _ else _) ++ optional path)
        with (verb_arguments (Diff path revision)).
      { apply Hrun. by intros [[? ?] ?] ?. }
      simpl. destruct revision as [r|]; simpl; [|reflexivity].
      destruct (String.eqb r ""); reflexivity.
    - unfold revert.
      replace ((if recursive then _ else _) ++ paths)
        with ("svn" :: "revert" :: flag recursive "-R" ++ paths)
        by (destruct recursive; reflexivity).
      apply Hrun. by intros [[? ?] ?] ?.
    - unfold cleanup. apply Hrun. by intros [[? ?] ?] ?.
    - unfold info. rewrite optional_spec. apply Hrun. by intros [[? ?] ?] ?.
    - unfold list_files. rewrite optional_spec. apply Hrun. by intros [[? ?] ?] ?.
  Qed.

End Credentials.

(** ** Strings *)
Section Strings.

Lemma cut_unfold (pat s : string) :
    cut pat s =
    if String.prefix pat s then Some ("", slice_from (String.length pat) s)
    else match s with
         | "" => None
         | String c s' =>
             match cut pat s' with
             | Some (pre, post) => Some (String c pre, post)
             | None => None
             end
         end.
  Proof. destruct s; reflexivity. Qed.

Lemma prefix_empty_r (pat : string) : pat <> "" -> String.prefix pat "" = false.
  Proof. destruct pat; [contradiction | reflexivity]. Qed.

Lemma prefix_app (pat x y : string) :
    String.prefix pat x = true -> String.prefix pat (x +:+ y) = true.
  Proof.
    revert x. induction pat as [|a pat IH]; intros x H.
    - by destruct (x +:+ y).
    - destruct x as [|b x]; [discriminate|].
      change (String b x +:+ y) with (String b (x +:+ y)). simpl in *.
      destruct (ascii_dec a b); [by apply IH | discriminate].
  Qed.

Lemma cut_prefix (pat s pre post : string) :
    cut pat s = Some (pre, post) -> exists rest, s = pre +:+ rest.
  Proof.
    revert pre post. induction s as [|c s IH]; intros pre post H;
      rewrite cut_unfold in H.
    - destruct (String.prefix pat ""); [|discriminate].
      inversion H; subst. by exists "".
    - destruct (String.prefix pat (String c s)).
      + inversion H; subst. by exists (String c s).
      + destruct (cut pat s) as [[pre' post']|] eqn:E; [|discriminate].
        inversion H; subst. destruct (IH _ _ eq_refl) as [rest ->].
        by exists rest.
  Qed.

  (** The text before the first occurrence of a pattern does not contain
      the pattern. *)
Lemma cut_before_free (pat s pre post : string) :
    pat <> "" -> cut pat s = Some (pre, post) -> cut pat pre = None.
  Proof.
    intros Hpat. revert pre post.
    induction s as [|c s IH]; intros pre post H; rewrite cut_unfold in H.
    - by rewrite prefix_empty_r in H.
    - destruct (String.prefix pat (String c s)) eqn:Hp.
      + inversion H; subst. rewrite cut_unfold. by rewrite prefix_empty_r.
      + destruct (cut pat s) as [[pre' post']|] eqn:E; [|discriminate].
        inversion H; subst. rewrite cut_unfold.
        destruct (String.prefix pat (String c pre')) eqn:Hp'.
        * destruct (cut_prefix _ _ _ _ E) as [rest ->].
          apply (prefix_app _ _ rest) in Hp'.
          change (String c pre' +:+ rest) with (String c (pre' +:+ rest)) in Hp'.
          congruence.
        * by rewrite (IH _ _ eq_refl).
  Qed.

Lemma cut_None_tail (pat : string) (c : ascii) (s : string) :
    cut pat (String c s) = None -> cut pat s = None.
  Proof.
    rewrite cut_unfold. destruct (String.prefix pat (String c s)); [discriminate|].
    by destruct (cut pat s) as [[? ?]|].
  Qed.

Lemma length_slice_from (n : nat) (s : string) :
    String.length (slice_from n s) = (String.length s - n)%nat.
  Proof.
    revert s. induction n as [|n IH]; intros [|c s]; simpl; try lia.
    by rewrite IH.
  Qed.

Lemma prefix_length (pat s : string) :
    String.prefix pat s = true -> (String.length pat <= String.length s)%nat.
  Proof.
    revert s. induction pat as [|a pat IH]; intros [|b s] H; simpl in *;
      try lia; try discriminate.
    destruct (ascii_dec a b); [|discriminate]. apply IH in H. lia.
  Qed.

  (** What follows a match is shorter than the text by the length of the
      pattern at least. *)
Lemma cut_length (pat s pre post : string) :
    cut pat s = Some (pre, post) ->
    (String.length pat + String.length post <= String.length s)%nat.
  Proof.
    revert pre post. induction s as [|c s IH]; intros pre post H;
      rewrite cut_unfold in H.
    - destruct (String.prefix pat "") eqn:Hp; [|discriminate].
      inversion H; subst. apply prefix_length in Hp.
      rewrite length_slice_from. lia.
    - destruct (String.prefix pat (String c s)) eqn:Hp.
      + inversion H; subst. apply prefix_length in Hp.
        rewrite length_slice_from. lia.
      + destruct (cut pat s) as [[pre' post']|] eqn:E; [|discriminate].
        inversion H; subst. specialize (IH _ _ eq_refl). simpl. lia.
  Qed.

Lemma findall_elements_go_empty (open close : string) (n : nat) :
    findall_elements_go n open close "" = [].
  Proof. destruct n; [reflexivity|]. by destruct open. Qed.

Lemma findall_elements_go_fuel (open close : string) (n m : nat) (s : string) :
    (String.length s <= n)%nat -> (String.length s <= m)%nat ->
    findall_elements_go n open close s = findall_elements_go m open close s.
  Proof.
    revert m s. induction n as [|n IH]; intros m s Hn Hm.
    - destruct s; [|simpl in Hn; lia]. by rewrite !findall_elements_go_empty.
    - destruct m as [|m].
      { destruct s; [|simpl in Hm; lia]. by rewrite !findall_elements_go_empty. }
      simpl.
      destruct (cut open s) as [[p1 s1]|] eqn:E1; [|reflexivity].
      destruct (cut ">" s1) as [[p2 s2]|] eqn:E2; [|reflexivity].
      destruct (cut close s2) as [[body s3]|] eqn:E3; [|reflexivity].
      apply cut_length in E1, E2, E3. simpl in E2.
      f_equal. apply IH; lia.
  Qed.

  (** [String.length s] rounds are enough for [findall_elements_go]:
      more fuel gives the same list. *)
Lemma findall_elements_fuel (open close : string) (n : nat) (s : string) :
    (String.length s <= n)%nat ->
    findall_elements_go n open close s = findall_elements open close s.
  Proof. intros H. unfold findall_elements. by apply findall_elements_go_fuel. Qed.

  (** No captured group of [findall_elements] contains the closing
      tag: the lazy group stops at its first occurrence. *)
Lemma findall_elements_close_free (open close : string) (fuel : nat) (s : string) :
    close <> "" ->
    Forall (fun body => cut close body = None)
           (findall_elements_go fuel open close s).
  Proof.
    intros Hc. revert s. induction fuel as [|fuel IH]; intros s; simpl.
    - constructor.
    - destruct (cut open s) as [[p1 s1]|]; [|constructor].
      destruct (cut ">" s1) as [[p2 s2]|]; [|constructor].
      destruct (cut close s2) as [[body s3]|] eqn:E3; [|constructor].
      constructor; [|apply IH]. by eapply cut_before_free.
  Qed.

  (** A text without [</path>] has no match for [>(.*?)</path>]. *)
Lemma search_gt_path_None (s : string) :
    cut "</path>" s = None -> search_gt_path s = None.
  Proof.
    induction s as [|c s IH]; intros H; [reflexivity|].
    apply cut_None_tail in H. simpl.
    rewrite H. rewrite (IH H). by destruct (Ascii.eqb c ">").
  Qed.

Lemma startswith_first_char (line : string) (a : ascii) :
    startswith line (String a " ") = true -> first_char line = String a "".
  Proof.
    unfold startswith. destruct line as [|b line]; simpl; [discriminate|].
    destruct (ascii_dec a b); [by subst | discriminate].
  Qed.

End Strings.

(** ** The line-oriented parser *)
Section LineParser.
Import RepoSyncer.

Lemma parse_line_known (vars : list Change * option string) (line : string) :
    Forall known_action (fst vars) ->
    Forall known_action (fst (parse_line vars line)).
  Proof.
    destruct vars as [changes cur]. unfold parse_line. intros H.
    destruct (match_revision_line line); [exact H|].
    destruct (startswith line "A ") eqn:HA; simpl.
    { apply Forall_app; split; [exact H|]. constructor; [|constructor].
      left. simpl. by apply startswith_first_char. }
    destruct (startswith line "M ") eqn:HM; simpl.
    { apply Forall_app; split; [exact H|]. constructor; [|constructor].
      right; left. simpl. by apply startswith_first_char. }
    destruct (startswith line "D ") eqn:HD; simpl; [|exact H].
    apply Forall_app; split; [exact H|]. constructor; [|constructor].
    right; right. simpl. by apply startswith_first_char.
  Qed.

Lemma fold_parse_line_known (ls : list string) (vars : list Change * option string) :
    Forall known_action (fst vars) ->
    Forall known_action (fst (fold_left parse_line ls vars)).
  Proof.
    revert vars. induction ls as [|l ls IH]; intros vars H; simpl; [exact H|].
    apply IH. by apply parse_line_known.
  Qed.

  (** Every record of the parser carries the action letter A, M or D. *)
Lemma parse_log_entry_known (log_output : string) :
    Forall known_action (parse_log_entry log_output).
  Proof. unfold parse_log_entry. apply fold_parse_line_known. constructor. Qed.

  (** Once a revision marker has been read, every later record has a
      revision. *)
Lemma fold_parse_line_resolved (ls : list string) (changes : list Change) (r : string) :
    Forall (fun c => revision c <> None) changes ->
    Forall (fun c => revision c <> None)
           (fst (fold_left parse_line ls (changes, Some r))).
  Proof.
    revert changes r. induction ls as [|l ls IH]; intros changes r H; simpl; [exact H|].
    destruct (match_revision_line l) as [r'|]; [by apply IH|].
    destruct (_ || _); [|by apply IH].
    apply IH. apply Forall_app; split; [exact H|]. by repeat constructor.
  Qed.

  (** C2.  A change line ahead of every revision marker is returned
      with the revision [None]: the parser does not drop it. *)
Theorem early_change_kept_without_revision :
    parse_log_entry Scenarios.early_change_log
    = [ {| revision := None; action := "A"; path := "foo.txt" |};
        {| revision := Some "10"; action := "M"; path := "bar.txt" |} ].
  Proof. reflexivity. Qed.

End LineParser.

(** ** The block-structured parser *)
Section BlockParser.
Import SVNRepoSync.

  (** On the captured groups of [findall], which hold no [</path>], the
      loop over the path entries raises at its first entry. *)
Lemma parse_path_entries_raises (acc : list ChangedPath) (entries : list string) :
    Forall (fun e => cut "</path>" e = None) entries ->
    parse_path_entries acc entries
    = match entries with [] => Ok acc | _ :: _ => Raise AttributeError end.
  Proof.
    intros H. destruct H as [|e entries He _]; [reflexivity|].
    simpl. unfold parse_path_entry. by rewrite (search_gt_path_None _ He).
  Qed.

Lemma parse_paths_block (inner : string) :
    parse_path_entries [] (findall_elements "<path" "</path>" inner)
    = match findall_elements "<path" "</path>" inner with
      | [] => Ok []
      | _ :: _ => Raise AttributeError
      end.
  Proof.
    apply parse_path_entries_raises.
    by apply findall_elements_close_free.
  Qed.

Lemma parse_block_no_paths (commits commits' : list Commit) (block : string) :
    Forall (fun c => changed_paths c = []) commits ->
    parse_block commits block = Ok commits' ->
    Forall (fun c => changed_paths c = []) commits'.
  Proof.
    intros H. unfold parse_block.
    destruct (search_attr is_digit "revision" block) as [rev|];
      [|by intros [= <-]].
    destruct (search_between "<paths>" "</paths>" block) as [inner|].
    - rewrite parse_paths_block.
      destruct (findall_elements "<path" "</path>" inner); [|discriminate].
      intros [= <-]. apply Forall_app; split; [exact H|]. by repeat constructor.
    - intros [= <-]. apply Forall_app; split; [exact H|]. by repeat constructor.
  Qed.

Lemma parse_blocks_no_paths (blocks : list string) (commits commits' : list Commit) :
    Forall (fun c => changed_paths c = []) commits ->
    parse_blocks commits blocks = Ok commits' ->
    Forall (fun c => changed_paths c = []) commits'.
  Proof.
    revert commits. induction blocks as [|b blocks IH]; intros commits H; simpl.
    - by intros [= <-].
    - destruct (parse_block commits b) as [c1|e] eqn:E; [|discriminate].
      apply IH. by eapply parse_block_no_paths.
  Qed.

  (** Whatever the XML, the parser returns no path entry at all: either
      it raises, or every commit it returns has an empty list of changed
      paths. *)
Lemma parse_xml_never_yields_a_path (xml : string) (commits : list Commit) :
    parse_xml xml = Ok commits ->
    Forall (fun c => changed_paths c = []) commits.
  Proof. apply parse_blocks_no_paths. constructor. Qed.

  (** C10.  On a log entry whose path entry has the action [add] in
      lower case, the parser raises [AttributeError] instead of
      returning the entry with the action [ADD]; so does
      [get_recent_commits] once the log command has printed that
      text. *)
Theorem lowercase_action_entry_raises :
    parse_xml Scenarios.xml_log = Raise AttributeError
    /\ fst (get_recent_commits MemOS.os Scenarios.xml_syncer "/src" 100
              (MemOS.start (Scenarios.world_of ∅
                 (Scenarios.printing "log" Scenarios.xml_log))))
       = Raise AttributeError.
  Proof. split; vm_compute; reflexivity. Qed.

End BlockParser.

(** ** Child processes and traces *)
Section Traces.
Context {W : Type} (os : OS W).

Lemma issued_refl (st : St W) : issued st st [].
  Proof. unfold issued. by rewrite app_nil_r. Qed.

Lemma issued_trans (st1 st2 st3 : St W) (cs cs' : list Call) :
    issued st1 st2 cs -> issued st2 st3 cs' -> issued st1 st3 (cs ++ cs').
  Proof. unfold issued. intros H1 H2. by rewrite H2, H1, app_assoc. Qed.

  (** What [_run_command] does, in one equation. *)
Lemma run_command_spec (self : SVNClient.t) (command : list string) (st : St W) :
    SVNClient._run_command os self command st
    = match spawn os (SVNClient.call_of self command) (world st) with
      | (Ok cp, w) =>
          (Ok (strip (stdout cp), strip (stderr cp), returncode cp),
           after st (SVNClient.call_of self command) w)
      | (Raise e, w) =>
          (Raise e, after st (SVNClient.call_of self command) w)
      end.
  Proof.
    unfold SVNClient._run_command, SVNClient.call_of, SVNClient.credentials.
    eff_unfold. unfold after.
    destruct (SVNClient.truthy (SVNClient.username self));
      destruct (SVNClient.truthy (SVNClient.password self));
      rewrite <- ?app_assoc, ?app_nil_r; simpl;
      destruct (spawn os _ (world st)) as [[cp|e] w]; reflexivity.
  Qed.

Lemma run_command_issued (self : SVNClient.t) (command : list string)
      (st st' : St W) (r : Res (string * string * Z)) :
    SVNClient._run_command os self command st = (r, st') ->
    issued st st' [SVNClient.call_of self command].
  Proof.
    rewrite run_command_spec.
    destruct (spawn os _ (world st)) as [[cp|e] w]; by intros [= <- <-].
  Qed.

  (** A loop whose body starts only child processes satisfying [P]
      starts only such processes. *)
Lemma for_each_issued {A B} (P : Call -> Prop) (body : B -> A -> M W B) :
    (forall acc x st r st', body acc x st = (r, st') ->
       exists cs, issued st st' cs /\ Forall P cs) ->
    forall xs acc st r st', for_each body xs acc st = (r, st') ->
       exists cs, issued st st' cs /\ Forall P cs.
  Proof.
    intros Hbody. induction xs as [|x xs IH]; intros acc st r st' H; simpl in H.
    - inversion H; subst. exists []. split; [apply issued_refl | constructor].
    - unfold bind in H. destruct (body acc x st) as [[acc'|e] st1] eqn:E.
      + destruct (Hbody _ _ _ _ _ E) as (cs1 & H1 & P1).
        destruct (IH _ _ _ _ H) as (cs2 & H2 & P2).
        exists (cs1 ++ cs2). split; [by eapply issued_trans | by apply Forall_app].
      + inversion H; subst. by eapply Hbody.
  Qed.

  (** A loop stops at the first iteration that raises: the elements
      after it are not visited. *)
Lemma for_each_raise {A B} (body : B -> A -> M W B) (x : A) (xs : list A)
      (acc : B) (st st' : St W) (e : exn) :
    body acc x st = (Raise e, st') ->
    for_each body (x :: xs) acc st = (Raise e, st').
  Proof. intros H. simpl. unfold bind. by rewrite H. Qed.

Lemma for_each_cons_ok {A B} (body : B -> A -> M W B) (x : A) (xs : list A)
      (acc acc' : B) (st st' : St W) :
    body acc x st = (Ok acc', st') ->
    for_each body (x :: xs) acc st = for_each body xs acc' st'.
  Proof. intros H. simpl. unfold bind. by rewrite H. Qed.

End Traces.

(** ** Replay in [RepoSyncer] *)
Section RepoSyncerReplay.
Context {W : Type} (os : OS W) (self : RepoSyncer.t).
Import RepoSyncer.

Local Abbreviation dst p := (join (repo2_path self) p).

Lemma add_spec (client : SVNClient.t) (paths : list string) (st : St W) :
  SVNClient.add os client paths st
  = match spawn os (SVNClient.call_of client (["svn"; "add"] ++ paths)) (world st) with
    | (Ok cp, w) =>
        (Ok (returncode cp =? 0),
         after st (SVNClient.call_of client (["svn"; "add"] ++ paths)) w)
    | (Raise e, w) =>
        (Raise e, after st (SVNClient.call_of client (["svn"; "add"] ++ paths)) w)
    end.
Proof.
  unfold SVNClient.add, bind. rewrite run_command_spec.
  by destruct (spawn os _ (world st)) as [[cp|e] w].
Qed.

Lemma delete_spec (client : SVNClient.t) (paths : list string) (st : St W) :
  SVNClient.delete os client paths false st
  = match spawn os (SVNClient.call_of client (["svn"; "delete"] ++ paths)) (world st) with
    | (Ok cp, w) =>
        (Ok (returncode cp =? 0),
         after st (SVNClient.call_of client (["svn"; "delete"] ++ paths)) w)
    | (Raise e, w) =>
        (Raise e, after st (SVNClient.call_of client (["svn"; "delete"] ++ paths)) w)
    end.
Proof.
  unfold SVNClient.delete, bind. rewrite run_command_spec.
  by destruct (spawn os _ (world st)) as [[cp|e] w].
Qed.

(** A record that is neither A, M nor D is passed over. *)
Lemma replay_other (acc : list string) (c : Change) (st : St W) :
  ~ known_action c -> replay_change os self acc c st = (Ok acc, st).
Proof.
  intros H. unfold replay_change, known_action in *.
  destruct (String.eqb_spec (action c) "A"); [tauto|].
  destruct (String.eqb_spec (action c) "M"); [tauto|].
  destruct (String.eqb_spec (action c) "D"); [tauto|].
  reflexivity.
Qed.

(** A delete of a path the target does not hold: nothing happens. *)
Lemma replay_delete_absent (acc : list string) (c : Change) (st : St W) :
  action c = "D" ->
  path_exists os (dst (path c)) (world st) = false ->
  replay_change os self acc c st = (Ok acc, st).
Proof.
  intros Ha He. unfold replay_change. rewrite Ha. simpl.
  eff_unfold. by rewrite He.
Qed.

(** A delete of a path the target holds: one [svn delete]. *)
Lemma replay_delete_present (acc : list string) (c : Change) (st : St W) :
  action c = "D" ->
  path_exists os (dst (path c)) (world st) = true ->
  replay_change os self acc c st
  = match spawn os (delete_call self (dst (path c))) (world st) with
    | (Ok _, w) =>
        (Ok (acc ++ [dst (path c)]), after st (delete_call self (dst (path c))) w)
    | (Raise e, w) => (Raise e, after st (delete_call self (dst (path c))) w)
    end.
Proof.
  intros Ha He. unfold replay_change. rewrite Ha. simpl.
  unfold exists_, bind at 1. rewrite He. unfold bind. rewrite delete_spec.
  unfold delete_call. simpl.
  by destruct (spawn os _ (world st)) as [[cp|e] w].
Qed.

Lemma ensure_dir_issued (d : string) (st st' : St W) (r : Res unit) :
  Ioutil.ensure_dir os d st = (r, st') -> issued st st' [].
Proof.
  unfold Ioutil.ensure_dir. eff_unfold.
  destruct (path_exists os d (world st)); simpl.
  - intros [= <- <-]. apply issued_refl.
  - destruct (makedirs os d false (world st)) as [r' w]. intros [= <- <-].
    unfold issued. simpl. by rewrite app_nil_r.
Qed.

Lemma copy_file_issued (a b : string) (st st' : St W) (r : Res unit) :
  Ioutil.copy_file os a b st = (r, st') -> issued st st' [].
Proof.
  unfold Ioutil.copy_file, lift_os.
  destruct (copy2 os a b (world st)) as [r' w]. intros [= <- <-].
  unfold issued. simpl. by rewrite app_nil_r.
Qed.

Lemma issued_nil_l (st1 st2 st3 : St W) (cs : list Call) :
  issued st1 st2 [] -> issued st2 st3 cs -> issued st1 st3 cs.
Proof. intros H1 H2. apply (issued_trans _ _ _ _ _ H1 H2). Qed.

(** One record starts at most one child process, an [add] or a
    [delete]. *)
Lemma replay_change_issued (acc : list string) (c : Change) (st st' : St W)
    (r : Res (list string)) :
  replay_change os self acc c st = (r, st') ->
  exists cs, issued st st' cs /\ Forall add_or_delete cs.
Proof.
  intros H. destruct (String.eqb (action c) "D") eqn:Hd.
  - apply String.eqb_eq in Hd.
    destruct (path_exists os (dst (path c)) (world st)) eqn:He.
    + rewrite (replay_delete_present _ _ _ Hd He) in H.
      exists [delete_call self (dst (path c))].
      split; [|by repeat constructor; right].
      destruct (spawn os _ (world st)) as [[cp|e] w]; by inversion H.
    + rewrite (replay_delete_absent _ _ _ Hd He) in H. inversion H; subst.
      exists []. split; [apply issued_refl | constructor].
  - unfold replay_change in H. rewrite Hd in H.
    destruct (String.eqb (action c) "A" || String.eqb (action c) "M");
      [|inversion H; subst; exists []; split; [apply issued_refl | constructor]].
    unfold bind at 1 in H.
    destruct (Ioutil.ensure_dir os _ st) as [[[]|e] st1] eqn:E1;
      apply ensure_dir_issued in E1;
      [|inversion H; subst; exists []; split; [done | constructor]].
    unfold bind at 1 in H.
    destruct (Ioutil.copy_file os _ _ st1) as [[[]|e] st2] eqn:E2;
      apply copy_file_issued in E2; pose proof (issued_nil_l _ _ _ _ E1 E2) as E12;
      [|inversion H; subst; exists []; split; [done | constructor]].
    destruct (String.eqb (action c) "A").
    + unfold bind in H. rewrite add_spec in H.
      exists [add_call self (dst (path c))].
      split; [|by repeat constructor; left].
      eapply issued_nil_l; [exact E12|].
      destruct (spawn os _ (world st2)) as [[cp|e] w]; by inversion H.
    + eff_unfold. inversion H; subst. exists []. split; [done | constructor].
Qed.

End RepoSyncerReplay.

(** ** A run of [RepoSyncer] *)
Section RepoSyncerRun.
Context {W : Type} (os : OS W) (self : RepoSyncer.t).
Import RepoSyncer.

Lemma log_spec (st : St W) :
  SVNClient.log os (repo1 self) (Some 100) None st
  = match spawn os (log_call self) (world st) with
    | (Ok cp, w) => (Ok (strip (stdout cp)), after st (log_call self) w)
    | (Raise e, w) => (Raise e, after st (log_call self) w)
    end.
Proof.
  unfold SVNClient.log, bind. simpl. rewrite run_command_spec.
  change (str_of_int 100) with "100". fold (log_call self).
  by destruct (spawn os _ (world st)) as [[cp|e] w].
Qed.

Lemma commit_spec (files : list string) (st : St W) :
  files <> [] ->
  SVNClient.commit os (repo2 self) commit_message (Some files) st
  = match spawn os (commit_call self files) (world st) with
    | (Ok cp, w) => (Ok (returncode cp =? 0), after st (commit_call self files) w)
    | (Raise e, w) => (Raise e, after st (commit_call self files) w)
    end.
Proof.
  intros Hf. unfold SVNClient.commit, bind.
  destruct files as [|f files]; [contradiction|].
  rewrite run_command_spec. fold (commit_call self (f :: files)).
  by destruct (spawn os _ (world st)) as [[cp|e] w].
Qed.

(** The try block of [sync_changes], stage by stage. *)
Lemma sync_changes_body_spec (st : St W) :
  sync_changes_body os self st
  = match spawn os (log_call self) (world st) with
    | (Raise e, w) => (Raise e, after st (log_call self) w)
    | (Ok cp, w) =>
        match for_each (replay_change os self)
                (parse_log_entry (strip (stdout cp))) []
                (after st (log_call self) w) with
        | (Raise e, st2) => (Raise e, st2)
        | (Ok [], st2) => (Ok true, st2)
        | (Ok (f :: fs), st2) =>
            SVNClient.commit os (repo2 self) commit_message (Some (f :: fs)) st2
        end
    end.
Proof.
  unfold sync_changes_body, bind at 1. rewrite log_spec.
  destruct (spawn os _ (world st)) as [[cp|e] w]; [|reflexivity].
  unfold bind.
  destruct (for_each _ _ _ _) as [[[|f fs]|e] st2]; reflexivity.
Qed.

(** [sync_changes] returns: no exception leaves it. *)
Lemma sync_changes_total (st : St W) :
  exists b, fst (sync_changes os self st) = Ok b.
Proof.
  unfold sync_changes, try_except.
  destruct (sync_changes_body os self st) as [[b|e] st']; by eexists.
Qed.

(** The child processes of the replay loop are [add]s and [delete]s. *)
Lemma replay_issued (changes : list Change) (acc : list string) (st st' : St W)
    (r : Res (list string)) :
  for_each (replay_change os self) changes acc st = (r, st') ->
  exists cs, issued st st' cs /\ Forall add_or_delete cs.
Proof.
  apply for_each_issued. intros a x s1 r1 s2. apply replay_change_issued.
Qed.

(** C8.  When the log command has run and the replay of the parsed
    changes ends with nothing to commit, [sync_changes] returns [True]
    in the state the replay left: no child process is started after the
    replay, and none of those of the run is a [commit]. *)
Theorem nothing_to_commit_reports_success
    (st st2 : St W) (cp : CompletedProcess) (w : W) :
  spawn os (log_call self) (world st) = (Ok cp, w) ->
  for_each (replay_change os self) (parse_log_entry (strip (stdout cp))) []
    (after st (log_call self) w) = (Ok [], st2) ->
  sync_changes os self st = (Ok true, st2)
  /\ exists cs, issued st st2 cs /\ Forall (fun c => verb_of c <> "commit") cs.
Proof.
  intros Hlog Hreplay. split.
  - unfold sync_changes, try_except. rewrite sync_changes_body_spec.
    by rewrite Hlog, Hreplay.
  - destruct (replay_issued _ _ _ _ _ Hreplay) as (cs & Hcs & Hverbs).
    exists (log_call self :: cs). split.
    + unfold issued in *. rewrite Hcs. simpl. by rewrite <- app_assoc.
    + constructor; [discriminate|].
      eapply Forall_impl; [exact Hverbs|].
      intros c [Hc|Hc]; rewrite Hc; discriminate.
Qed.

(** When the commit command exits with a non-zero status,
    [sync_changes] returns [False] in the state that command left. *)
Lemma sync_changes_commit_fails
    (st st2 : St W) (cp cp' : CompletedProcess) (w w3 : W) (files : list string) :
  spawn os (log_call self) (world st) = (Ok cp, w) ->
  for_each (replay_change os self) (parse_log_entry (strip (stdout cp))) []
    (after st (log_call self) w) = (Ok files, st2) ->
  files <> [] ->
  spawn os (commit_call self files) (world st2) = (Ok cp', w3) ->
  returncode cp' <> 0 ->
  sync_changes os self st = (Ok false, after st2 (commit_call self files) w3).
Proof.
  intros Hlog Hreplay Hfiles Hcommit Hcode.
  unfold sync_changes, try_except. rewrite sync_changes_body_spec.
  rewrite Hlog, Hreplay. destruct files as [|f fs]; [contradiction|].
  rewrite commit_spec by done. rewrite Hcommit.
  by destruct (Z.eqb_spec (returncode cp') 0).
Qed.

(** Every child process of [sync_changes] is a [log], an [add], a
    [delete] or a [commit]. *)
Lemma sync_changes_issued (st st' : St W) (r : Res bool) :
  sync_changes os self st = (r, st') ->
  exists cs, issued st st' cs /\ Forall pipeline_verb cs.
Proof.
  unfold sync_changes, try_except. rewrite sync_changes_body_spec.
  assert (Hlogv : pipeline_verb (log_call self)) by (right; by left).
  assert (Hsub : forall cs, Forall add_or_delete cs -> Forall pipeline_verb cs).
  { intros cs Hv. eapply Forall_impl; [exact Hv|].
    intros c [H|H]; unfold pipeline_verb; tauto. }
  destruct (spawn os _ (world st)) as [[cp|e] w].
  2:{ intros [= <- <-]. exists [log_call self]. split; [done|].
      constructor; [exact Hlogv | constructor]. }
  destruct (for_each _ _ _ _) as [[files|e] st2] eqn:E;
    destruct (replay_issued _ _ _ _ _ E) as (cs & Hcs & Hv);
    apply Hsub in Hv;
    assert (Hpre : issued st st2 (log_call self :: cs))
      by (unfold issued in *; rewrite Hcs; simpl; by rewrite <- app_assoc).
  - destruct files as [|f fs].
    + intros [= <- <-]. exists (log_call self :: cs). split; [done|by constructor].
    + rewrite commit_spec by done. intros H.
      exists ((log_call self :: cs) ++ [commit_call self (f :: fs)]). split.
      * eapply issued_trans; [exact Hpre|].
        destruct (spawn os _ (world st2)) as [[cp'|e] w']; by inversion H.
      * apply Forall_app. split; [by constructor|].
        constructor; [|constructor]. unfold pipeline_verb. simpl. tauto.
  - intros [= <- <-]. exists (log_call self :: cs). split; [done|by constructor].
Qed.

End RepoSyncerRun.

(** ** A run of [SVNRepoSync] *)
Section SVNRepoSyncRun.
Context {W : Type} (os : OS W) (self : SVNRepoSync.t).
Import SVNRepoSync.

(** What [run_svn_command] does, in one equation: a missing binary is
    turned into the exit status 1, any other exception goes through. *)
Lemma run_svn_command_spec (command : list string) (repo_path : option string)
    (st : St W) :
  run_svn_command os self command repo_path st
  = match spawn os (svn_call self command repo_path) (world st) with
    | (Ok cp, w) =>
        (Ok (returncode cp, stdout cp, stderr cp),
         after st (svn_call self command repo_path) w)
    | (Raise FileNotFoundError, w) =>
        (Ok (1, "", "svn command not found"),
         after st (svn_call self command repo_path) w)
    | (Raise e, w) => (Raise e, after st (svn_call self command repo_path) w)
    end.
Proof.
  unfold run_svn_command, svn_call. eff_unfold. unfold after. simpl.
  destruct (spawn os _ (world st)) as [[cp|[]] w]; reflexivity.
Qed.

Lemma run_svn_command_issued (command : list string) (repo_path : option string)
    (st st' : St W) (r : Res (Z * string * string)) :
  run_svn_command os self command repo_path st = (r, st') ->
  issued st st' [svn_call self command repo_path].
Proof.
  rewrite run_svn_command_spec.
  destruct (spawn os _ (world st)) as [[cp|[]] w]; by intros [= <- <-].
Qed.

(** A handler that swallows every exception makes the block total. *)
Lemma try_swallow (m : M W unit) (st : St W) :
  fst (try_except m (fun _ => ret tt) st) = Ok tt.
Proof.
  unfold try_except, ret. by destruct (m st) as [[[]|e] st'].
Qed.

(** The body of the replay loop returns normally on every change and
    in every state: what fails inside is caught inside. *)
Lemma replay_change_total (change : ChangedPath) (st : St W) :
  fst (replay_change os self tt change st) = Ok tt.
Proof.
  unfold replay_change.
  destruct (_ || _); [apply try_swallow|].
  destruct (String.eqb _ _); [apply try_swallow | reflexivity].
Qed.

Lemma for_each_total {A} (body : unit -> A -> M W unit) (xs : list A) (st : St W) :
  (forall x s, fst (body tt x s) = Ok tt) ->
  fst (for_each body xs tt st) = Ok tt.
Proof.
  intros Hbody. revert st. induction xs as [|x xs IH]; intros st; [reflexivity|].
  simpl. unfold bind. specialize (Hbody x st).
  destruct (body tt x st) as [[[]|e] st1]; simpl in Hbody; [apply IH | discriminate].
Qed.

(** [sync_changes] returns normally on every list of commits. *)
Lemma sync_changes_never_raises (commits : list Commit) (st : St W) :
  fst (sync_changes os self commits st) = Ok tt.
Proof.
  apply for_each_total. intros c s. unfold replay_commit.
  apply for_each_total. apply replay_change_total.
Qed.

(** After a change, whatever became of it, the loop goes on with the
    changes that follow. *)
Lemma replay_continues (change : ChangedPath) (rest : list ChangedPath) (st : St W) :
  for_each (replay_change os self) (change :: rest) tt st
  = for_each (replay_change os self) rest tt
      (snd (replay_change os self tt change st)).
Proof.
  simpl. unfold bind. pose proof (replay_change_total change st) as H.
  destruct (replay_change os self tt change st) as [[[]|e] st1];
    simpl in *; [reflexivity | discriminate].
Qed.

(** A change with an action outside ADD, MODIFY, REPLACE and DELETE is
    passed over: the state is left as it was. *)
Lemma replay_skips_unknown (change : ChangedPath) (st : St W) :
  ~ known_action change ->
  replay_change os self tt change st = (Ok tt, st).
Proof.
  unfold known_action, replay_change. intros H.
  destruct (String.eqb_spec (action change) "ADD"); [tauto|].
  destruct (String.eqb_spec (action change) "MODIFY"); [tauto|].
  destruct (String.eqb_spec (action change) "REPLACE"); [tauto|].
  destruct (String.eqb_spec (action change) "DELETE"); [tauto|].
  reflexivity.
Qed.

(** A delete of a path the target does not hold: nothing happens. *)
Lemma replay_delete_absent_xml (change : ChangedPath) (st : St W) :
  action change = "DELETE" ->
  path_exists os (target_of self change) (world st) = false ->
  replay_change os self tt change st = (Ok tt, st).
Proof.
  intros Ha He. unfold replay_change. rewrite Ha. simpl.
  unfold target_of in He. eff_unfold. by rewrite He.
Qed.

(** The content write of ADD, MODIFY and REPLACE: the directory is made,
    [svn cat] is run, and on exit status 0 its output is written to the
    target. *)
Lemma replay_write_spec (change : ChangedPath) (st : St W)
    (w1 w2 : W) (cp : CompletedProcess) :
  action change = "ADD" \/ action change = "MODIFY" \/ action change = "REPLACE" ->
  makedirs os (dirname (target_of self change)) true (world st) = (Ok tt, w1) ->
  spawn os (svn_call self ["cat"; join (repo1_url self) (path change)]
              (Some (repo1_url self))) w1 = (Ok cp, w2) ->
  returncode cp = 0 ->
  replay_change os self tt change st
  = (Ok tt,
     {| world := snd (write_text os (target_of self change) (stdout cp) w2);
        calls := calls st ++ [svn_call self
                                ["cat"; join (repo1_url self) (path change)]
                                (Some (repo1_url self))] |}).
Proof.
  intros Ha Hmk Hcat Hcode. unfold replay_change.
  replace (String.eqb (action change) "ADD" || String.eqb (action change) "MODIFY"
           || String.eqb (action change) "REPLACE") with true
    by (destruct Ha as [-> | [-> | ->]]; reflexivity).
  unfold try_except, bind at 1, lift_os at 1. fold (target_of self change).
  rewrite Hmk. unfold bind. rewrite run_svn_command_spec. simpl.
  rewrite Hcat, Hcode. simpl. unfold lift_os. simpl.
  by destruct (write_text os _ _ w2) as [[[]|e] w3].
Qed.

End SVNRepoSyncRun.

(** ** The stages of [SVNRepoSync] *)
Section SVNRepoSyncStages.
Context {W : Type} (os : OS W) (self : SVNRepoSync.t).
Import SVNRepoSync.

Local Abbreviation update_call := (svn_call self ["update"] (Some (repo2_path self))).
Local Abbreviation log_call :=
  (svn_call self ["log"; repo1_url self; "-l"; "100"; "--xml"] (Some (repo1_url self))).
Local Abbreviation add_call := (svn_call self ["add"; "--force"; "."] (Some (repo2_path self))).
Local Abbreviation commit_call m := (svn_call self ["commit"; "-m"; m] (Some (repo2_path self))).

(** A non-zero exit status of [svn update] raises. *)
Lemma update_repo_fails (st : St W) (cp : CompletedProcess) (w : W) :
  spawn os update_call (world st) = (Ok cp, w) ->
  returncode cp <> 0 ->
  update_repo os self (repo2_path self) st
  = (Raise (Exception ("SVN update failed: " +:+ stderr cp)), after st update_call w).
Proof.
  intros Hsp Hcode. unfold update_repo, bind. rewrite run_svn_command_spec, Hsp.
  by destruct (Z.eqb_spec (returncode cp) 0).
Qed.

(** A non-zero exit status of [svn log] gives the empty list of
    commits, and no exception. *)
Lemma get_recent_commits_fails (st : St W) (cp : CompletedProcess) (w : W) :
  spawn os log_call (world st) = (Ok cp, w) ->
  returncode cp <> 0 ->
  get_recent_commits os self (repo1_url self) 100 st = (Ok [], after st log_call w).
Proof.
  intros Hsp Hcode. unfold get_recent_commits, bind.
  change (str_of_int 100) with "100".
  rewrite run_svn_command_spec, Hsp.
  by destruct (Z.eqb_spec (returncode cp) 0).
Qed.

(** A non-zero exit status of [svn commit] raises, in the state the
    command left. *)
Lemma commit_changes_fails (message : string) (st st1 : St W)
    (x : Z * string * string) (cp : CompletedProcess) (w : W) :
  run_svn_command os self ["add"; "--force"; "."] (Some (repo2_path self)) st
    = (Ok x, st1) ->
  spawn os (commit_call message) (world st1) = (Ok cp, w) ->
  returncode cp <> 0 ->
  commit_changes os self message st
  = (Raise (Exception ("SVN commit failed: " +:+ stderr cp)),
     after st1 (commit_call message) w).
Proof.
  intros Hadd Hsp Hcode. unfold commit_changes, try_except, bind at 1.
  rewrite Hadd. unfold bind. rewrite run_svn_command_spec, Hsp.
  by destruct (Z.eqb_spec (returncode cp) 0).
Qed.

Lemma update_repo_issued (st st' : St W) (r : Res unit) :
  update_repo os self (repo2_path self) st = (r, st') ->
  issued st st' [update_call].
Proof.
  unfold update_repo, bind.
  destruct (run_svn_command os self _ _ st) as [[[[c o] e]|e] s1] eqn:E;
    apply run_svn_command_issued in E;
    [destruct (c =? 0)|]; by intros [= <- <-].
Qed.

Lemma get_recent_commits_issued (st st' : St W) (r : Res (list Commit)) :
  get_recent_commits os self (repo1_url self) 100 st = (r, st') ->
  issued st st' [log_call].
Proof.
  unfold get_recent_commits, bind. change (str_of_int 100) with "100".
  destruct (run_svn_command os self _ _ st) as [[[[c o] e]|e] s1] eqn:E;
    apply run_svn_command_issued in E; [|by intros [= <- <-]].
  destruct (negb (c =? 0)); [by intros [= <- <-]|].
  destruct (parse_xml o); by intros [= <- <-].
Qed.

Lemma commit_changes_issued (message : string) (st st' : St W) (r : Res unit) :
  commit_changes os self message st = (r, st') ->
  exists cs, issued st st' cs /\ Forall pipeline_verb cs.
Proof.
  unfold commit_changes, try_except, bind at 1.
  assert (Ha : pipeline_verb add_call) by (unfold pipeline_verb; simpl; tauto).
  assert (Hc : pipeline_verb (commit_call message))
    by (unfold pipeline_verb; simpl; tauto).
  destruct (run_svn_command os self _ _ st) as [[x|e] s1] eqn:E1;
    apply run_svn_command_issued in E1.
  2:{ unfold raise. intros [= <- <-]. exists [add_call]. by split; [|repeat constructor]. }
  unfold bind.
  destruct (run_svn_command os self _ _ s1) as [[[[c o] e]|e] s2] eqn:E2;
    apply run_svn_command_issued in E2;
    pose proof (issued_trans _ _ _ _ _ E1 E2) as E12;
    [destruct (c =? 0)|]; unfold ret, raise; intros [= <- <-];
    exists ([add_call] ++ [commit_call message]);
    (split; [exact E12 | by repeat constructor]).
Qed.

Lemma svn_delete_issued (path : string) (st st' : St W) (r : Res unit) :
  svn_delete os self path st = (r, st') ->
  issued st st' [svn_call self ["delete"; path; "--force"] (Some (repo2_path self))].
Proof.
  unfold svn_delete, try_except, bind.
  destruct (run_svn_command os self _ _ st) as [[[[c o] e]|e] s1] eqn:E;
    apply run_svn_command_issued in E;
    [destruct (negb (c =? 0))|]; unfold ret, raise; by intros [= <- <-].
Qed.

(** One change starts at most one child process, a [cat] or a
    [delete]. *)
Lemma replay_change_issued_xml (change : ChangedPath) (st st' : St W) (r : Res unit) :
  replay_change os self tt change st = (r, st') ->
  exists cs, issued st st' cs /\ Forall pipeline_verb cs.
Proof.
  unfold replay_change.
  destruct (_ || _).
  - unfold try_except, bind at 1, lift_os at 1.
    destruct (makedirs os _ true (world st)) as [[[]|e] w1].
    2:{ unfold ret. intros [= <- <-]. exists []. split; [by unfold issued; simpl; rewrite app_nil_r | constructor]. }
    unfold bind.
    destruct (run_svn_command os self _ _ _) as [[[[c o] e]|e] s1] eqn:E;
      apply run_svn_command_issued in E; unfold issued in E; simpl in E.
    + destruct (c =? 0).
      * unfold lift_os. destruct (write_text os _ _ (world s1)) as [[[]|e'] w2];
          unfold ret; intros [= <- <-]; eexists; (split; [exact E|]);
          repeat constructor; unfold pipeline_verb; simpl; tauto.
      * unfold ret. intros [= <- <-]. eexists. split; [exact E|].
        repeat constructor; unfold pipeline_verb; simpl; tauto.
    + unfold ret. intros [= <- <-]. eexists. split; [exact E|].
      repeat constructor; unfold pipeline_verb; simpl; tauto.
  - destruct (String.eqb _ _);
      [|unfold ret; intros [= <- <-]; exists []; split; [by unfold issued; simpl; rewrite app_nil_r | constructor]].
    unfold try_except, bind, exists_.
    destruct (path_exists os _ (world st));
      [|unfold ret; intros [= <- <-]; exists []; split; [by unfold issued; simpl; rewrite app_nil_r | constructor]].
    destruct (svn_delete os self _ st) as [[[]|e] s1] eqn:E;
      apply svn_delete_issued in E; unfold ret; intros [= <- <-];
      eexists; (split; [exact E|]);
      repeat constructor; unfold pipeline_verb; simpl; tauto.
Qed.

Lemma sync_changes_issued_xml (commits : list Commit) (st st' : St W) (r : Res unit) :
  sync_changes os self commits st = (r, st') ->
  exists cs, issued st st' cs /\ Forall pipeline_verb cs.
Proof.
  apply for_each_issued. intros [] c s1 r1 s2. unfold replay_commit.
  apply for_each_issued. intros [] ch s3 r3 s4. apply replay_change_issued_xml.
Qed.

(** Every child process of the script is an [update], a [log], a [cat],
    a [delete], an [add] or a [commit]. *)
Lemma script_issued (st st' : St W) (r : Res unit) :
  script os self st = (r, st') ->
  exists cs, issued st st' cs /\ Forall pipeline_verb cs.
Proof.
  unfold script, bind at 1.
  assert (Hu : pipeline_verb update_call) by (unfold pipeline_verb; simpl; tauto).
  assert (Hl : pipeline_verb log_call) by (unfold pipeline_verb; simpl; tauto).
  destruct (update_repo os self _ st) as [[[]|e] s1] eqn:E1;
    apply update_repo_issued in E1.
  2:{ intros [= <- <-]. exists [update_call]. by split; [|repeat constructor]. }
  unfold bind at 1.
  destruct (get_recent_commits os self _ _ s1) as [[commits|e] s2] eqn:E2;
    apply get_recent_commits_issued in E2;
    pose proof (issued_trans _ _ _ _ _ E1 E2) as E12.
  2:{ intros [= <- <-]. eexists. split; [exact E12|].
      rewrite !Forall_app, !Forall_singleton. tauto. }
  unfold bind.
  destruct (sync_changes os self commits s2) as [[[]|e] s3] eqn:E3;
    destruct (sync_changes_issued_xml _ _ _ _ E3) as (cs3 & H3 & V3);
    pose proof (issued_trans _ _ _ _ _ E12 H3) as E123.
  2:{ intros [= <- <-]. eexists. split; [exact E123|].
      rewrite !Forall_app, !Forall_singleton. tauto. }
  intros E4. destruct (commit_changes_issued _ _ _ _ E4) as (cs4 & H4 & V4).
  eexists. split; [exact (issued_trans _ _ _ _ _ E123 H4)|].
  rewrite !Forall_app, !Forall_singleton. tauto.
Qed.

(** The script, when its first three stages have gone through and the
    commit command exits with a non-zero status, ends on the exception
    of [commit_changes], in the state that command left. *)
Lemma script_commit_fails (st sa sb sd : St W) (commits : list Commit)
    (x : Z * string * string) (cp : CompletedProcess) (w : W) :
  update_repo os self (repo2_path self) st = (Ok tt, sa) ->
  get_recent_commits os self (repo1_url self) 100 sa = (Ok commits, sb) ->
  run_svn_command os self ["add"; "--force"; "."] (Some (repo2_path self))
    (snd (sync_changes os self commits sb)) = (Ok x, sd) ->
  spawn os (commit_call default_message) (world sd) = (Ok cp, w) ->
  returncode cp <> 0 ->
  script os self st
  = (Raise (Exception ("SVN commit failed: " +:+ stderr cp)),
     after sd (commit_call default_message) w).
Proof.
  intros Hu Hg Ha Hc Hcode. unfold script, bind at 1. rewrite Hu.
  unfold bind at 1. rewrite Hg. unfold bind.
  pose proof (sync_changes_never_raises os self commits sb) as Hs.
  destruct (sync_changes os self commits sb) as [[[]|e] sc]; simpl in *;
    [|discriminate].
  by eapply commit_changes_fails.
Qed.

End SVNRepoSyncStages.

(** ** [main] of [repo_sync.py] *)
Section RepoSyncerMain.
Context {W : Type} (os : OS W).
Import RepoSyncer.

Lemma update_spec (client : SVNClient.t) (st : St W) :
  SVNClient.update os client None st
  = match spawn os (update_call client) (world st) with
    | (Ok cp, w) => (Ok (returncode cp =? 0), after st (update_call client) w)
    | (Raise e, w) => (Raise e, after st (update_call client) w)
    end.
Proof.
  unfold SVNClient.update, bind. simpl. rewrite run_command_spec.
  fold (update_call client).
  by destruct (spawn os _ (world st)) as [[cp|e] w].
Qed.

(** [main] after the update stage. *)
Lemma main_after_update (r1 r2 : string) (u p : option string) (st st1 : St W) :
  update_repos os (__init__ r1 r2 u p) st = (Ok true, st1) ->
  main os r1 r2 u p st
  = match sync_changes os (__init__ r1 r2 u p) st1 with
    | (Ok true, st2) => (Ok SyncedOk, st2)
    | (Ok false, st2) => (Ok FailedToSync, st2)
    | (Raise e, st2) => (Raise e, st2)
    end.
Proof.
  intros Hu. unfold main, bind at 1. rewrite Hu. simpl. unfold bind, ret.
  by destruct (sync_changes os _ st1) as [[[]|e] st2].
Qed.

(** A non-zero exit status of the first [svn update] ends [main] at
    once; so does one of the second. *)
Lemma main_update_fails_first (r1 r2 : string) (u p : option string) (st : St W)
    (cp : CompletedProcess) (w : W) :
  let self := __init__ r1 r2 u p in
  spawn os (update_call (repo1 self)) (world st) = (Ok cp, w) ->
  returncode cp <> 0 ->
  main os r1 r2 u p st = (Ok FailedToUpdate, after st (update_call (repo1 self)) w).
Proof.
  intros self Hsp Hcode. unfold main, bind at 1, update_repos, bind at 1.
  fold self. rewrite update_spec, Hsp.
  by destruct (Z.eqb_spec (returncode cp) 0).
Qed.

Lemma main_update_fails_second (r1 r2 : string) (u p : option string) (st : St W)
    (cp cp' : CompletedProcess) (w w' : W) :
  let self := __init__ r1 r2 u p in
  spawn os (update_call (repo1 self)) (world st) = (Ok cp, w) ->
  returncode cp = 0 ->
  spawn os (update_call (repo2 self)) w = (Ok cp', w') ->
  returncode cp' <> 0 ->
  main os r1 r2 u p st
  = (Ok FailedToUpdate,
     after (after st (update_call (repo1 self)) w) (update_call (repo2 self)) w').
Proof.
  intros self Hsp Hcode Hsp' Hcode'. subst self. simpl in *.
  unfold main, bind at 1, update_repos, bind at 1.
  rewrite update_spec. simpl. rewrite Hsp, Hcode. simpl.
  rewrite update_spec. simpl. rewrite Hsp'.
  by destruct (Z.eqb_spec (returncode cp') 0).
Qed.

Lemma update_repos_issued (self : t) (st st' : St W) (r : Res bool) :
  update_repos os self st = (r, st') ->
  exists cs, issued st st' cs /\ Forall pipeline_verb cs.
Proof.
  assert (Hv : forall c, pipeline_verb (update_call c)) by (intros c; by left).
  unfold update_repos, bind. rewrite update_spec.
  destruct (spawn os _ (world st)) as [[cp|e] w].
  2:{ intros [= <- <-]. eexists. split; [reflexivity|]. by repeat constructor. }
  destruct (returncode cp =? 0).
  - rewrite update_spec. simpl.
    destruct (spawn os _ w) as [[cp'|e] w']; intros [= <- <-];
      exists [update_call (repo1 self); update_call (repo2 self)];
      (split; [unfold issued; simpl; by rewrite <- app_assoc | by repeat constructor]).
  - intros [= <- <-]. eexists. split; [reflexivity|]. by repeat constructor.
Qed.

(** Every child process of [main] is an [update], a [log], an [add], a
    [delete] or a [commit]. *)
Lemma main_issued (r1 r2 : string) (u p : option string) (st st' : St W)
    (r : Res Outcome) :
  main os r1 r2 u p st = (r, st') ->
  exists cs, issued st st' cs /\ Forall pipeline_verb cs.
Proof.
  unfold main, bind at 1.
  destruct (update_repos os _ st) as [[[]|e] s1] eqn:E1;
    destruct (update_repos_issued _ _ _ _ E1) as (cs1 & H1 & V1); simpl.
  - unfold bind.
    destruct (sync_changes os _ s1) as [[b|e] s2] eqn:E2;
      destruct (sync_changes_issued _ _ _ _ _ E2) as (cs2 & H2 & V2);
      [destruct b|]; intros [= <- <-]; exists (cs1 ++ cs2);
      (split; [by eapply issued_trans | by apply Forall_app]).
  - intros [= <- <-]. by exists cs1.
  - intros [= <- <-]. by exists cs1.
Qed.

End RepoSyncerMain.

(** ** Failure of a stage *)
Section Stages.
Context {W : Type} (os : OS W).

Lemma pipeline_verb_not_revert (c : Call) :
  RepoSyncer.pipeline_verb c -> verb_of c <> "revert".
Proof. intros [H|[H|[H|[H|H]]]]; rewrite H; discriminate. Qed.

Lemma pipeline_verb_not_revert_xml (c : Call) :
  SVNRepoSync.pipeline_verb c -> verb_of c <> "revert".
Proof. intros [H|[H|[H|[H|[H|H]]]]]; rewrite H; discriminate. Qed.

(** C7.  When the commit command exits with a non-zero status the run
    ends as failed, in the very world that command left: [main] of
    [repo_sync.py] reports a failed sync, the script of
    [sync_between_repos.py] ends on the exception of [commit_changes];
    and no child process of either run is a [revert]. *)
Theorem commit_failure_is_terminal_without_rollback :
  (forall (r1 r2 : string) (u p : option string) (st st1 st2 : St W)
          (cp cp' : CompletedProcess) (w w3 : W) (files : list string),
      let self := RepoSyncer.__init__ r1 r2 u p in
      RepoSyncer.update_repos os self st = (Ok true, st1) ->
      spawn os (RepoSyncer.log_call self) (world st1) = (Ok cp, w) ->
      for_each (RepoSyncer.replay_change os self)
        (RepoSyncer.parse_log_entry (strip (stdout cp))) []
        (after st1 (RepoSyncer.log_call self) w) = (Ok files, st2) ->
      files <> [] ->
      spawn os (RepoSyncer.commit_call self files) (world st2) = (Ok cp', w3) ->
      returncode cp' <> 0 ->
      RepoSyncer.main os r1 r2 u p st
      = (Ok RepoSyncer.FailedToSync, after st2 (RepoSyncer.commit_call self files) w3)
      /\ exists cs,
           issued st (after st2 (RepoSyncer.commit_call self files) w3) cs
           /\ Forall (fun c => verb_of c <> "revert") cs)
  /\
  (forall (self : SVNRepoSync.t) (st sa sb sd : St W)
          (commits : list SVNRepoSync.Commit) (x : Z * string * string)
          (cp : CompletedProcess) (w : W),
      let commit_call :=
        SVNRepoSync.svn_call self ["commit"; "-m"; SVNRepoSync.default_message]
          (Some (SVNRepoSync.repo2_path self)) in
      SVNRepoSync.update_repo os self (SVNRepoSync.repo2_path self) st = (Ok tt, sa) ->
      SVNRepoSync.get_recent_commits os self (SVNRepoSync.repo1_url self) 100 sa
        = (Ok commits, sb) ->
      SVNRepoSync.run_svn_command os self ["add"; "--force"; "."]
        (Some (SVNRepoSync.repo2_path self))
        (snd (SVNRepoSync.sync_changes os self commits sb)) = (Ok x, sd) ->
      spawn os commit_call (world sd) = (Ok cp, w) ->
      returncode cp <> 0 ->
      SVNRepoSync.script os self st
      = (Raise (Exception ("SVN commit failed: " +:+ stderr cp)),
         after sd commit_call w)
      /\ exists cs,
           issued st (after sd commit_call w) cs
           /\ Forall (fun c => verb_of c <> "revert") cs).
Proof.
  split.
  - intros r1 r2 u p st st1 st2 cp cp' w w3 files self Hu Hlog Hrep Hf Hc Hcode.
    assert (Hmain : RepoSyncer.main os r1 r2 u p st
                    = (Ok RepoSyncer.FailedToSync,
                       after st2 (RepoSyncer.commit_call self files) w3)).
    { rewrite (main_after_update _ _ _ _ _ _ _ Hu). fold self.
      by rewrite (sync_changes_commit_fails _ _ _ _ _ _ _ _ _ Hlog Hrep Hf Hc Hcode). }
    split; [exact Hmain|].
    destruct (main_issued _ _ _ _ _ _ _ _ Hmain) as (cs & Hcs & Hv).
    exists cs. split; [exact Hcs|].
    eapply Forall_impl; [exact Hv | apply pipeline_verb_not_revert].
  - intros self st sa sb sd commits x cp w commit_call Hu Hg Ha Hc Hcode.
    pose proof (script_commit_fails _ _ _ _ _ _ _ _ _ _ Hu Hg Ha Hc Hcode) as Hs.
    split; [exact Hs|].
    destruct (script_issued _ _ _ _ _ Hs) as (cs & Hcs & Hv).
    exists cs. split; [exact Hcs|].
    eapply Forall_impl; [exact Hv | apply pipeline_verb_not_revert_xml].
Qed.

End Stages.

(** Evaluation on the system in memory. *)
Ltac run_mem := vm_compute; reflexivity.

Ltac split_pair :=
  match goal with
  | |- ?x = (?a, ?b) => transitivity (fst x, snd x);
                        [by destruct x | f_equal; run_mem]
  end.

Lemma commit_failure_is_terminal_without_rollback_witness :
  fst (RepoSyncer.main MemOS.os "/src" "/dst" (Some "u") (Some "p")
         (MemOS.start Scenarios.commit_fails_world))
  = Ok RepoSyncer.FailedToSync
  /\ MemOS.files
       (world (snd (RepoSyncer.main MemOS.os "/src" "/dst" (Some "u") (Some "p")
                      (MemOS.start Scenarios.commit_fails_world)))) !! "/dst/a.txt"
     = Some "a"
  /\ fst (SVNRepoSync.script MemOS.os Scenarios.xml_syncer
            (MemOS.start Scenarios.commit_fails_world))
     = Raise (Exception "SVN commit failed: E160028").
Proof.
  destruct (@commit_failure_is_terminal_without_rollback MemOS.World MemOS.os)
    as [Hmain Hscript].
  set (st := MemOS.start Scenarios.commit_fails_world).
  assert (Hrun : exists final,
             RepoSyncer.main MemOS.os "/src" "/dst" (Some "u") (Some "p") st
             = (Ok RepoSyncer.FailedToSync, final)
             /\ MemOS.files (world final) !! "/dst/a.txt" = Some "a").
  { edestruct (Hmain "/src" "/dst" (Some "u") (Some "p") st) as [Hm _];
      [split_pair | split_pair | split_pair | discriminate | split_pair
       | vm_compute; discriminate |].
    eexists. split; [exact Hm | run_mem]. }
  destruct Hrun as (final & -> & Hfile).
  split; [reflexivity | split; [exact Hfile|]].
  edestruct (Hscript Scenarios.xml_syncer st) as [Hs _];
    [split_pair | split_pair | split_pair | split_pair | vm_compute; discriminate |].
  rewrite Hs. run_mem.
Defined.

Section StageFailures.
Context {W : Type} (os : OS W).

(** A log command that printed nothing, whatever its exit status, makes
    [sync_changes] return [True] right after it. *)
Lemma sync_changes_silent_log (self : RepoSyncer.t) (st : St W)
    (cp : CompletedProcess) (w : W) :
  spawn os (RepoSyncer.log_call self) (world st) = (Ok cp, w) ->
  strip (stdout cp) = "" ->
  RepoSyncer.sync_changes os self st
  = (Ok true, after st (RepoSyncer.log_call self) w).
Proof.
  intros Hsp Hout. unfold RepoSyncer.sync_changes, try_except.
  by rewrite sync_changes_body_spec, Hsp, Hout.
Qed.

(** After a failed log command the script goes on to the commit
    stage. *)
Lemma script_log_fails (self : SVNRepoSync.t) (st sa : St W)
    (cp : CompletedProcess) (w : W) :
  let log_call :=
    SVNRepoSync.svn_call self
      ["log"; SVNRepoSync.repo1_url self; "-l"; "100"; "--xml"]
      (Some (SVNRepoSync.repo1_url self)) in
  SVNRepoSync.update_repo os self (SVNRepoSync.repo2_path self) st = (Ok tt, sa) ->
  spawn os log_call (world sa) = (Ok cp, w) ->
  returncode cp <> 0 ->
  SVNRepoSync.script os self st
  = SVNRepoSync.commit_changes os self SVNRepoSync.default_message
      (after sa log_call w).
Proof.
  intros log_call Hu Hsp Hcode. unfold SVNRepoSync.script, bind at 1. rewrite Hu.
  unfold bind at 1. by rewrite (get_recent_commits_fails _ _ _ _ _ Hsp Hcode).
Qed.

Lemma script_update_fails (self : SVNRepoSync.t) (st : St W)
    (cp : CompletedProcess) (w : W) :
  let update_call :=
    SVNRepoSync.svn_call self ["update"] (Some (SVNRepoSync.repo2_path self)) in
  spawn os update_call (world st) = (Ok cp, w) ->
  returncode cp <> 0 ->
  SVNRepoSync.script os self st
  = (Raise (Exception ("SVN update failed: " +:+ stderr cp)), after st update_call w).
Proof.
  intros update_call Hsp Hcode. unfold SVNRepoSync.script, bind at 1.
  by rewrite (update_repo_fails _ _ _ _ _ Hsp Hcode).
Qed.

(** C4 (as amended).  A non-zero exit status of an update (of the
    source working copy or of the target one in [repo_sync.py], of the
    target one in [sync_between_repos.py]) or of the
    commit command ends the run as failed; one of the log command does
    not: [SVNClient.log] hands back what was printed whatever the
    status, so that a log command that failed and printed nothing makes
    [sync_changes] return [True], and [get_recent_commits] returns the
    empty list, after which the script goes on to its commit stage. *)
Theorem update_and_commit_fatal_log_fetch_not :
  (forall (r1 r2 : string) (u p : option string) (st : St W)
          (cp : CompletedProcess) (w : W),
      let self := RepoSyncer.__init__ r1 r2 u p in
      spawn os (RepoSyncer.update_call (RepoSyncer.repo1 self)) (world st) = (Ok cp, w) ->
      returncode cp <> 0 ->
      RepoSyncer.main os r1 r2 u p st
      = (Ok RepoSyncer.FailedToUpdate,
         after st (RepoSyncer.update_call (RepoSyncer.repo1 self)) w))
  /\
  (forall (r1 r2 : string) (u p : option string) (st : St W)
          (cp cp' : CompletedProcess) (w w' : W),
      let self := RepoSyncer.__init__ r1 r2 u p in
      spawn os (RepoSyncer.update_call (RepoSyncer.repo1 self)) (world st) = (Ok cp, w) ->
      returncode cp = 0 ->
      spawn os (RepoSyncer.update_call (RepoSyncer.repo2 self)) w = (Ok cp', w') ->
      returncode cp' <> 0 ->
      RepoSyncer.main os r1 r2 u p st
      = (Ok RepoSyncer.FailedToUpdate,
         after (after st (RepoSyncer.update_call (RepoSyncer.repo1 self)) w)
           (RepoSyncer.update_call (RepoSyncer.repo2 self)) w'))
  /\
  (forall (self : SVNRepoSync.t) (st : St W) (cp : CompletedProcess) (w : W),
      let update_call :=
        SVNRepoSync.svn_call self ["update"] (Some (SVNRepoSync.repo2_path self)) in
      spawn os update_call (world st) = (Ok cp, w) ->
      returncode cp <> 0 ->
      SVNRepoSync.script os self st
      = (Raise (Exception ("SVN update failed: " +:+ stderr cp)),
         after st update_call w))
  /\
  (forall (self : RepoSyncer.t) (st st2 : St W) (cp cp' : CompletedProcess)
          (w w3 : W) (files : list string),
      spawn os (RepoSyncer.log_call self) (world st) = (Ok cp, w) ->
      for_each (RepoSyncer.replay_change os self)
        (RepoSyncer.parse_log_entry (strip (stdout cp))) []
        (after st (RepoSyncer.log_call self) w) = (Ok files, st2) ->
      files <> [] ->
      spawn os (RepoSyncer.commit_call self files) (world st2) = (Ok cp', w3) ->
      returncode cp' <> 0 ->
      RepoSyncer.sync_changes os self st
      = (Ok false, after st2 (RepoSyncer.commit_call self files) w3))
  /\
  (forall (self : SVNRepoSync.t) (message : string) (st st1 : St W)
          (x : Z * string * string) (cp : CompletedProcess) (w : W),
      let commit_call :=
        SVNRepoSync.svn_call self ["commit"; "-m"; message]
          (Some (SVNRepoSync.repo2_path self)) in
      SVNRepoSync.run_svn_command os self ["add"; "--force"; "."]
        (Some (SVNRepoSync.repo2_path self)) st = (Ok x, st1) ->
      spawn os commit_call (world st1) = (Ok cp, w) ->
      returncode cp <> 0 ->
      SVNRepoSync.commit_changes os self message st
      = (Raise (Exception ("SVN commit failed: " +:+ stderr cp)),
         after st1 commit_call w))
  /\
  (forall (self : RepoSyncer.t) (st : St W) (cp : CompletedProcess) (w : W),
      spawn os (RepoSyncer.log_call self) (world st) = (Ok cp, w) ->
      returncode cp <> 0 ->
      SVNClient.log os (RepoSyncer.repo1 self) (Some 100) None st
      = (Ok (strip (stdout cp)), after st (RepoSyncer.log_call self) w)
      /\ (strip (stdout cp) = "" ->
          RepoSyncer.sync_changes os self st
          = (Ok true, after st (RepoSyncer.log_call self) w)))
  /\
  (forall (self : SVNRepoSync.t) (st sa : St W) (cp : CompletedProcess) (w : W),
      let log_call :=
        SVNRepoSync.svn_call self
          ["log"; SVNRepoSync.repo1_url self; "-l"; "100"; "--xml"]
          (Some (SVNRepoSync.repo1_url self)) in
      spawn os log_call (world sa) = (Ok cp, w) ->
      returncode cp <> 0 ->
      SVNRepoSync.get_recent_commits os self (SVNRepoSync.repo1_url self) 100 sa
      = (Ok [], after sa log_call w)
      /\ (SVNRepoSync.update_repo os self (SVNRepoSync.repo2_path self) st = (Ok tt, sa) ->
          SVNRepoSync.script os self st
          = SVNRepoSync.commit_changes os self SVNRepoSync.default_message
              (after sa log_call w))).
Proof.
  repeat apply conj.
  - intros r1 r2 u p st cp w self Hsp Hcode.
    by apply (main_update_fails_first os r1 r2 u p st cp w).
  - intros r1 r2 u p st cp cp' w w' self Hsp Hcode Hsp' Hcode'.
    by apply (main_update_fails_second os r1 r2 u p st cp cp' w w').
  - intros self st cp w update_call Hsp Hcode.
    by apply (script_update_fails self st cp w).
  - intros self st st2 cp cp' w w3 files Hlog Hrep Hf Hc Hcode.
    by apply (sync_changes_commit_fails os self st st2 cp cp' w w3 files).
  - intros self message st st1 x cp w commit_call Ha Hc Hcode.
    by apply (commit_changes_fails os self message st st1 x cp w).
  - intros self st cp w Hsp Hcode. split.
    + by rewrite log_spec, Hsp.
    + intros Hout. by apply (sync_changes_silent_log self st cp w).
  - intros self st sa cp w log_call Hsp Hcode. split.
    + by apply (get_recent_commits_fails os self sa cp w).
    + intros Hu. by apply (script_log_fails self st sa cp w).
Qed.

End StageFailures.

(** C4, refuted as stated: the log command exits with status 1, and the
    run of [repo_sync.py] ends as a successful sync, while the script of
    [sync_between_repos.py] runs to its end, commit included. *)
Lemma failed_log_fetch_is_not_fatal :
  returncode (MemOS.reply Scenarios.log_fails_world "log") = 1
  /\ fst (RepoSyncer.main MemOS.os "/src" "/dst" (Some "u") (Some "p")
            (MemOS.start Scenarios.log_fails_world))
     = Ok RepoSyncer.SyncedOk
  /\ fst (SVNRepoSync.script MemOS.os Scenarios.xml_syncer
            (MemOS.start Scenarios.log_fails_world))
     = Ok tt
  /\ map verb_of (calls (snd (SVNRepoSync.script MemOS.os Scenarios.xml_syncer
                                 (MemOS.start Scenarios.log_fails_world))))
     = ["update"; "log"; "add"; "commit"].
Proof. repeat split; run_mem. Qed.

(** ** Deletes *)
Section Deletes.
Context {W : Type} (os : OS W).

(** In [sync_between_repos.py], a delete of a path the target holds
    runs [svn delete --force]; whatever the command answers, the loop
    body returns in the state the command left. *)
Lemma replay_delete_present_xml (self : SVNRepoSync.t)
    (change : SVNRepoSync.ChangedPath) (st : St W) :
  let call :=
    SVNRepoSync.svn_call self
      ["delete"; SVNRepoSync.target_of self change; "--force"]
      (Some (SVNRepoSync.repo2_path self)) in
  SVNRepoSync.action change = "DELETE" ->
  path_exists os (SVNRepoSync.target_of self change) (world st) = true ->
  SVNRepoSync.replay_change os self tt change st
  = (Ok tt, after st call (snd (spawn os call (world st)))).
Proof.
  intros call Ha He. unfold SVNRepoSync.replay_change. rewrite Ha. simpl.
  fold (SVNRepoSync.target_of self change).
  unfold try_except, bind, exists_. rewrite He.
  unfold SVNRepoSync.svn_delete, try_except, bind.
  rewrite run_svn_command_spec. fold call.
  destruct (spawn os call (world st)) as [[cp|[]] w]; simpl;
    try reflexivity; by destruct (returncode cp =? 0).
Qed.

(** C6 (as amended).  A delete of a path the target working copy does
    not hold leaves the state as it was (no attempt to start a child
    process, so no [svn delete]), raises nothing, and the loop goes on
    with the records that follow; this in both pipelines.  An addition
    of [x] followed by a delete of [x], when the addition has gone
    through and left [x] in the target, runs the delete command once
    and ends without error in the world that command left, whatever its
    exit status ([repo_sync.py]) and whatever became of it
    ([sync_between_repos.py]): [x] is absent afterwards only if the
    command has removed it. *)
Theorem delete_of_absent_path_is_noop :
  (forall (self : RepoSyncer.t) (acc : list string) (c : RepoSyncer.Change)
          (rest : list RepoSyncer.Change) (st : St W),
      RepoSyncer.action c = "D" ->
      path_exists os (join (RepoSyncer.repo2_path self) (RepoSyncer.path c))
        (world st) = false ->
      RepoSyncer.replay_change os self acc c st = (Ok acc, st)
      /\ for_each (RepoSyncer.replay_change os self) (c :: rest) acc st
         = for_each (RepoSyncer.replay_change os self) rest acc st)
  /\
  (forall (self : SVNRepoSync.t) (c : SVNRepoSync.ChangedPath)
          (rest : list SVNRepoSync.ChangedPath) (st : St W),
      SVNRepoSync.action c = "DELETE" ->
      path_exists os (SVNRepoSync.target_of self c) (world st) = false ->
      SVNRepoSync.replay_change os self tt c st = (Ok tt, st)
      /\ for_each (SVNRepoSync.replay_change os self) (c :: rest) tt st
         = for_each (SVNRepoSync.replay_change os self) rest tt st)
  /\
  (forall (self : RepoSyncer.t) (x : string) (rev rev' : option string)
          (acc acc1 : list string) (st st1 : St W) (cp : CompletedProcess) (w2 : W),
      let dst := join (RepoSyncer.repo2_path self) x in
      let addition :=
        {| RepoSyncer.revision := rev; RepoSyncer.action := "A";
           RepoSyncer.path := x |} in
      let deletion :=
        {| RepoSyncer.revision := rev'; RepoSyncer.action := "D";
           RepoSyncer.path := x |} in
      RepoSyncer.replay_change os self acc addition st = (Ok acc1, st1) ->
      path_exists os dst (world st1) = true ->
      spawn os (RepoSyncer.delete_call self dst) (world st1) = (Ok cp, w2) ->
      for_each (RepoSyncer.replay_change os self) [addition; deletion] acc st
      = (Ok (acc1 ++ [dst]), after st1 (RepoSyncer.delete_call self dst) w2))
  /\
  (forall (self : SVNRepoSync.t) (x : string) (st : St W),
      let addition := {| SVNRepoSync.path := x; SVNRepoSync.action := "ADD" |} in
      let deletion := {| SVNRepoSync.path := x; SVNRepoSync.action := "DELETE" |} in
      let dst := SVNRepoSync.target_of self deletion in
      let st1 := snd (SVNRepoSync.replay_change os self tt addition st) in
      let call :=
        SVNRepoSync.svn_call self ["delete"; dst; "--force"]
          (Some (SVNRepoSync.repo2_path self)) in
      path_exists os dst (world st1) = true ->
      for_each (SVNRepoSync.replay_change os self) [addition; deletion] tt st
      = (Ok tt, after st1 call (snd (spawn os call (world st1))))).
Proof.
  repeat apply conj.
  - intros self acc c rest st Ha He.
    pose proof (replay_delete_absent os self acc c st Ha He) as H.
    split; [exact H|]. by apply for_each_cons_ok.
  - intros self c rest st Ha He.
    pose proof (replay_delete_absent_xml os self c st Ha He) as H.
    split; [exact H|]. by apply for_each_cons_ok.
  - intros self x rev rev' acc acc1 st st1 cp w2 dst addition deletion Hadd He Hsp.
    rewrite (for_each_cons_ok _ _ _ _ _ _ _ Hadd). simpl. unfold bind.
    rewrite (replay_delete_present os self acc1 deletion st1 eq_refl He).
    simpl. fold dst. by rewrite Hsp.
  - intros self x st addition deletion dst st1 call He.
    rewrite replay_continues. fold st1. simpl. unfold bind.
    rewrite (replay_delete_present_xml self deletion st1 eq_refl He).
    reflexivity.
Qed.

End Deletes.

(** C6, refuted as stated: with an [svn delete] that refuses and exits
    with status 1, the replay of an addition of [x] followed by a delete
    of [x] ends without error, [sync_changes] returns [True], and [x]
    is still in the target. *)
Lemma add_then_delete_can_leave_x_present :
  let st := MemOS.start Scenarios.delete_refused_world in
  let addition := {| RepoSyncer.revision := Some "1"; RepoSyncer.action := "A";
                     RepoSyncer.path := "x" |} in
  let deletion := {| RepoSyncer.revision := Some "2"; RepoSyncer.action := "D";
                     RepoSyncer.path := "x" |} in
  let replay := for_each (RepoSyncer.replay_change MemOS.os Scenarios.syncer)
                  [addition; deletion] [] st in
  let run := RepoSyncer.sync_changes MemOS.os Scenarios.syncer st in
  RepoSyncer.parse_log_entry (stdout (MemOS.reply Scenarios.delete_refused_world "log"))
  = [addition; deletion]
  /\ fst replay = Ok ["/dst/x"; "/dst/x"]
  /\ path_exists MemOS.os "/dst/x" (world (snd replay)) = true
  /\ map verb_of (calls (snd replay)) = ["add"; "delete"]
  /\ fst run = Ok true
  /\ path_exists MemOS.os "/dst/x" (world (snd run)) = true.
Proof. repeat split; run_mem. Qed.

Lemma delete_of_absent_path_is_noop_witness :
  (let st := MemOS.start Scenarios.x_world in
   let c := {| RepoSyncer.revision := Some "2"; RepoSyncer.action := "D";
               RepoSyncer.path := "x" |} in
   RepoSyncer.replay_change MemOS.os Scenarios.syncer [] c st = (Ok [], st))
  /\
  (let st := MemOS.start Scenarios.x_world in
   let addition := {| RepoSyncer.revision := Some "1"; RepoSyncer.action := "A";
                      RepoSyncer.path := "x" |} in
   let deletion := {| RepoSyncer.revision := Some "2"; RepoSyncer.action := "D";
                      RepoSyncer.path := "x" |} in
   let replay := for_each (RepoSyncer.replay_change MemOS.os Scenarios.syncer)
                   [addition; deletion] [] st in
   fst replay = Ok ["/dst/x"; "/dst/x"]
   /\ path_exists MemOS.os "/dst/x" (world (snd replay)) = false)
  /\
  (let st := MemOS.start Scenarios.x_world in
   let addition := {| SVNRepoSync.path := "x"; SVNRepoSync.action := "ADD" |} in
   let deletion := {| SVNRepoSync.path := "x"; SVNRepoSync.action := "DELETE" |} in
   let replay := for_each (SVNRepoSync.replay_change MemOS.os Scenarios.xml_syncer)
                   [addition; deletion] tt st in
   fst replay = Ok tt
   /\ path_exists MemOS.os "/dst/x" (world (snd replay)) = false).
Proof.
  destruct (@delete_of_absent_path_is_noop MemOS.World MemOS.os)
    as (Hline & _ & Hpair & Hpair_xml).
  split; [|split].
  - intros st c. apply (Hline Scenarios.syncer [] c [] st); run_mem.
  - intros st addition deletion replay. subst replay addition deletion.
    erewrite (Hpair Scenarios.syncer "x" (Some "1") (Some "2") [] _ st);
      [idtac | split_pair | run_mem | split_pair]; split; run_mem.
  - intros st addition deletion replay. subst replay addition deletion.
    rewrite (Hpair_xml Scenarios.xml_syncer "x" st) by run_mem.
    split; run_mem.
Defined.

(** ** The line parser: structure of its output *)
Section LineParserStructure.
Import RepoSyncer.

Lemma revision_line_starts_with_r (line r : string) :
  match_revision_line line = Some r -> exists rest, line = String "r" rest.
Proof.
  destruct line as [|c rest]; [discriminate|].
  destruct c as [[] [] [] [] [] [] [] []]; try discriminate.
  intros _. by exists rest.
Qed.

Lemma revision_line_is_no_change (line r : string) :
  match_revision_line line = Some r -> is_change_line line = false.
Proof. intros H. by destruct (revision_line_starts_with_r _ _ H) as [rest ->]. Qed.

Lemma parse_line_step (changes : list Change) (cur : option string) (l : string) :
  parse_line (changes, cur) l
  = (changes ++ fst (parse_line ([], cur) l), snd (parse_line ([], cur) l)).
Proof.
  unfold parse_line. destruct (match_revision_line l); simpl;
    [by rewrite app_nil_r|].
  destruct (_ || _); simpl; [reflexivity | by rewrite app_nil_r].
Qed.

Lemma fold_parse_line_app (ls : list string) (changes : list Change)
    (cur : option string) :
  fold_left parse_line ls (changes, cur)
  = (changes ++ fst (fold_left parse_line ls ([], cur)),
     snd (fold_left parse_line ls ([], cur))).
Proof.
  revert changes cur. induction ls as [|l ls IH]; intros changes cur;
    cbn [fold_left].
  - simpl. by rewrite app_nil_r.
  - rewrite parse_line_step.
    destruct (parse_line ([], cur) l) as [new cur'] eqn:E. cbn [fst snd].
    rewrite (IH (changes ++ new)), (IH new). cbn [fst snd]. by rewrite app_assoc.
Qed.

(** The records are the change lines, in their order. *)
Lemma fold_parse_line_lines (ls : list string) (cur : option string) :
  map (fun c => (action c, path c)) (fst (fold_left parse_line ls ([], cur)))
  = map (fun l => (first_char l, strip (slice_from 2 l)))
        (List.filter is_change_line ls).
Proof.
  revert cur. induction ls as [|l ls IH]; intros cur; [reflexivity|].
  cbn [fold_left List.filter].
  destruct (parse_line ([], cur) l) as [new cur'] eqn:E.
  rewrite fold_parse_line_app. cbn [fst]. rewrite map_app, IH.
  unfold parse_line in E.
  destruct (match_revision_line l) as [r|] eqn:Hm.
  - rewrite (revision_line_is_no_change _ _ Hm). by inversion E.
  - fold (is_change_line l) in E. destruct (is_change_line l); by inversion E.
Qed.

(** X3.  The records the parser returns are the lines that start with
    [A ], [M ] or [D ], one record per line and in the order of the log;
    the action of a record is the first letter of its line and its path
    is the rest of the line after the second character, stripped. *)
Theorem records_are_the_change_lines_in_order (log_output : string) :
  map (fun c => (action c, path c)) (parse_log_entry log_output)
  = map (fun l => (first_char l, strip (slice_from 2 l)))
        (List.filter is_change_line (split line_feed log_output)).
Proof. apply fold_parse_line_lines. Qed.

Lemma split_nonempty (sep : ascii) (s : string) : split sep s <> [].
Proof.
  destruct s as [|c s]; simpl; [discriminate|].
  destruct (Ascii.eqb c sep); [discriminate|].
  destruct (split sep s); discriminate.
Qed.

(** Splitting a text cut at a separator is splitting its two parts. *)
Lemma split_app (sep : ascii) (a b : string) :
  split sep (a +:+ String sep b) = split sep a ++ split sep b.
Proof.
  induction a as [|c a IH].
  - change ("" +:+ String sep b) with (String sep b). simpl.
    by rewrite Ascii.eqb_refl.
  - change (String c a +:+ String sep b) with (String c (a +:+ String sep b)).
    simpl. destruct (Ascii.eqb c sep); [by rewrite IH|].
    rewrite IH. pose proof (split_nonempty sep a) as Hne.
    by destruct (split sep a).
Qed.

(** X4.  Text appended to a log after a line break adds records at the
    end and changes none of those parsed before: the records of the
    first part are a prefix of the records of the whole. *)
Theorem appended_text_keeps_earlier_records (a b : string) :
  exists later,
    parse_log_entry (a +:+ String line_feed b) = parse_log_entry a ++ later.
Proof.
  unfold parse_log_entry. rewrite split_app, fold_left_app.
  destruct (fold_left parse_line (split line_feed a) ([], None)) as [changes cur].
  rewrite fold_parse_line_app. simpl. by eexists.
Qed.

Lemma match_revision_line_r (x : string) :
  match_revision_line (String "r" x)
  = match fst (span is_digit x) with
    | "" => None
    | d => Some d
    end.
Proof. simpl. by destruct (span is_digit x) as [[|c d] y]. Qed.

Lemma span_first_line (rest h : string) (t : list string) :
  split line_feed rest = h :: t ->
  fst (span is_digit h) = fst (span is_digit rest).
Proof.
  revert h t. induction rest as [|c rest IH]; intros h t H; simpl in H.
  - by inversion H.
  - destruct (Ascii.eqb c line_feed) eqn:Hc.
    + inversion H; subst. apply Ascii.eqb_eq in Hc. by subst.
    + destruct (split line_feed rest) as [|h' t'] eqn:E;
        [by destruct (split_nonempty line_feed rest)|].
      inversion H; subst.
      * simpl. specialize (IH _ _ eq_refl).
        destruct (is_digit c); [|reflexivity].
        destruct (span is_digit h') as [d1 r1], (span is_digit rest) as [d2 r2].
        simpl in *. by subst.
Qed.

(** A text that starts with a revision marker has this marker on its
    first line. *)
Lemma first_line_marker (s r : string) :
  match_revision_line s = Some r ->
  exists l ls, split line_feed s = l :: ls /\ match_revision_line l = Some r.
Proof.
  intros H. destruct (revision_line_starts_with_r _ _ H) as [rest ->].
  simpl split. change (Ascii.eqb "r" line_feed) with false. cbv iota.
  destruct (split line_feed rest) as [|h t] eqn:E;
    [by destruct (split_nonempty line_feed rest)|].
  exists (String "r" h), t. split; [reflexivity|].
  rewrite match_revision_line_r in *. by rewrite (span_first_line _ _ _ E).
Qed.

(** X5.  A log that starts with a revision marker yields only records
    with a revision. *)
Theorem leading_marker_resolves_every_record (log_output r : string) :
  match_revision_line log_output = Some r ->
  Forall (fun c => revision c <> None) (parse_log_entry log_output).
Proof.
  intros H. destruct (first_line_marker _ _ H) as (l & ls & Hs & Hl).
  unfold parse_log_entry. rewrite Hs. cbn [fold_left].
  replace (parse_line ([], None) l) with (@nil Change, Some r)
    by (unfold parse_line; by rewrite Hl).
  apply fold_parse_line_resolved. constructor.
Qed.

Lemma span_all_digits (s : string) : all_digits (fst (span is_digit s)) = true.
Proof.
  induction s as [|c s IH]; [reflexivity|]. simpl.
  destruct (is_digit c) eqn:Hc; [|reflexivity].
  destruct (span is_digit s) as [d r]. simpl in *. by rewrite Hc, IH.
Qed.

Lemma match_revision_line_digits (line d : string) :
  match_revision_line line = Some d -> d <> "" /\ all_digits d = true.
Proof.
  intros H. destruct (revision_line_starts_with_r _ _ H) as [rest ->].
  rewrite match_revision_line_r in H.
  pose proof (span_all_digits rest) as Hd.
  destruct (fst (span is_digit rest)) as [|c d']; [discriminate|].
  inversion H; subst. by split.
Qed.

Lemma fold_parse_line_digits (ls : list string) (changes : list Change)
    (cur : option string) :
  digits_or_none cur ->
  Forall (fun c => digits_or_none (revision c)) changes ->
  Forall (fun c => digits_or_none (revision c))
         (fst (fold_left parse_line ls (changes, cur))).
Proof.
  revert changes cur. induction ls as [|l ls IH]; intros changes cur Hc H;
    simpl; [exact H|].
  destruct (match_revision_line l) as [d|] eqn:Hm.
  - apply IH; [|exact H]. intros r [= <-]. by apply (match_revision_line_digits l).
  - destruct (_ || _); [|by apply IH].
    apply IH; [exact Hc|]. apply Forall_app. split; [exact H|].
    constructor; [exact Hc | constructor].
Qed.

(** X6.  The revision of a record, when it has one, is a non-empty
    string of decimal digits: the letter [r] of the marker and what
    follows the number on its line are left out. *)
Theorem revisions_are_digit_strings (log_output : string) :
  Forall (fun c => forall r, revision c = Some r -> r <> "" /\ all_digits r = true)
         (parse_log_entry log_output).
Proof.
  apply (fold_parse_line_digits _ [] None); [by intros r | constructor].
Qed.

Lemma rstrip_idem (s : string) : rstrip (rstrip s) = rstrip s.
Proof.
  induction s as [|c s IH]; [reflexivity|]. simpl.
  destruct (rstrip s) as [|d r] eqn:E.
  - destruct (isspace c) eqn:Hc; [reflexivity|]. simpl. by rewrite Hc.
  - change (rstrip (String c (String d r))
            = String c (String d r)).
    simpl. simpl in IH. by rewrite IH.
Qed.

Lemma lstrip_head (s : string) :
  lstrip s = "" \/ exists c t, lstrip s = String c t /\ isspace c = false.
Proof.
  induction s as [|c s IH]; [by left|]. simpl.
  destruct (isspace c) eqn:Hc; [exact IH|]. right. by exists c, s.
Qed.

Lemma strip_idem (s : string) : strip (strip s) = strip s.
Proof.
  unfold strip. destruct (lstrip_head s) as [-> | (c & t & -> & Hc)];
    [reflexivity|].
  assert (Hr : exists r, rstrip (String c t) = String c r).
  { simpl. destruct (rstrip t); rewrite ?Hc; by eexists. }
  destruct Hr as [r Hr]. rewrite Hr. simpl lstrip. rewrite Hc.
  by rewrite <- Hr, rstrip_idem.
Qed.

(** X7.  The path of a record has no white space at either end:
    stripping it again changes nothing. *)
Theorem record_paths_are_stripped (log_output : string) :
  Forall (fun c => strip (path c) = path c) (parse_log_entry log_output).
Proof.
  pose proof (fold_parse_line_lines (split line_feed log_output) None) as H.
  fold (parse_log_entry log_output) in H.
  apply Forall_forall. intros c Hc.
  assert (Hin : In (action c, path c)
                   (map (fun c => (action c, path c)) (parse_log_entry log_output))).
  { apply in_map_iff. exists c. split; [reflexivity|]. by apply list_elem_of_In. }
  rewrite H in Hin. apply in_map_iff in Hin as (l & Hl & _).
  inversion Hl as [[Ha Hp]]. by rewrite strip_idem.
Qed.

End LineParserStructure.

Lemma leading_marker_resolves_every_record_witness :
  Forall (fun c => RepoSyncer.revision c <> None)
         (RepoSyncer.parse_log_entry Scenarios.e2e_log).
Proof.
  apply (leading_marker_resolves_every_record Scenarios.e2e_log "10").
  reflexivity.
Defined.

(** ** Unknown actions *)

(** A line that is neither a revision marker nor a change line leaves
    the two variables of the parsing loop as they were. *)
Lemma parse_line_skips (vars : list RepoSyncer.Change * option string) (l : string) :
  match_revision_line l = None ->
  RepoSyncer.is_change_line l = false ->
  RepoSyncer.parse_line vars l = vars.
Proof.
  intros Hm Hc. destruct vars as [changes cur]. unfold RepoSyncer.parse_line.
  rewrite Hm. fold (RepoSyncer.is_change_line l). by rewrite Hc.
Qed.

(** Such a line can be taken out of the log: the output is the same. *)
Lemma skipped_line_can_be_removed (a l b : string) :
  split RepoSyncer.line_feed l = [l] ->
  match_revision_line l = None ->
  RepoSyncer.is_change_line l = false ->
  RepoSyncer.parse_log_entry
    (a +:+ String RepoSyncer.line_feed (l +:+ String RepoSyncer.line_feed b))
  = RepoSyncer.parse_log_entry (a +:+ String RepoSyncer.line_feed b).
Proof.
  intros Hl Hm Hc. unfold RepoSyncer.parse_log_entry.
  rewrite !split_app, Hl, !fold_left_app. simpl fold_left at 2.
  by rewrite parse_line_skips.
Qed.

Section UnknownActions.
Context {W : Type} (os : OS W).

(** C3 (as amended).  The line parser returns only records whose
    action letter is A, M or D: its records are exactly the lines that
    start with [A ], [M ] or [D ], in the order of the log, so that a
    line with another letter, such as X, yields no record, and taking
    such a line out of the log changes nothing of the output; and
    [sync_changes] of [repo_sync.py] would pass over a record with
    another letter.  In [sync_between_repos.py] a change whose action
    is none of ADD, MODIFY, REPLACE and DELETE is skipped, the state left
    as it was; a REPLACE is replayed as a content write: [svn cat], then
    its output written to the target. *)
Theorem unknown_action_dropped_or_skipped :
  (forall log_output : string,
      Forall RepoSyncer.known_action (RepoSyncer.parse_log_entry log_output))
  /\
  (forall log_output : string,
      map (fun c => (RepoSyncer.action c, RepoSyncer.path c))
          (RepoSyncer.parse_log_entry log_output)
      = map (fun l => (first_char l, strip (slice_from 2 l)))
            (List.filter RepoSyncer.is_change_line
               (split RepoSyncer.line_feed log_output)))
  /\
  (forall a l b : string,
      split RepoSyncer.line_feed l = [l] ->
      match_revision_line l = None ->
      RepoSyncer.is_change_line l = false ->
      RepoSyncer.parse_log_entry
        (a +:+ String RepoSyncer.line_feed (l +:+ String RepoSyncer.line_feed b))
      = RepoSyncer.parse_log_entry (a +:+ String RepoSyncer.line_feed b))
  /\
  (forall (self : RepoSyncer.t) (acc : list string) (c : RepoSyncer.Change) (st : St W),
      ~ RepoSyncer.known_action c ->
      RepoSyncer.replay_change os self acc c st = (Ok acc, st))
  /\
  (forall (self : SVNRepoSync.t) (c : SVNRepoSync.ChangedPath) (st : St W),
      ~ SVNRepoSync.known_action c ->
      SVNRepoSync.replay_change os self tt c st = (Ok tt, st))
  /\
  (forall (self : SVNRepoSync.t) (c : SVNRepoSync.ChangedPath) (st : St W)
          (w1 w2 : W) (cp : CompletedProcess),
      let cat_call :=
        SVNRepoSync.svn_call self
          ["cat"; join (SVNRepoSync.repo1_url self) (SVNRepoSync.path c)]
          (Some (SVNRepoSync.repo1_url self)) in
      SVNRepoSync.action c = "REPLACE" ->
      makedirs os (dirname (SVNRepoSync.target_of self c)) true (world st) = (Ok tt, w1) ->
      spawn os cat_call w1 = (Ok cp, w2) ->
      returncode cp = 0 ->
      SVNRepoSync.replay_change os self tt c st
      = (Ok tt,
         {| world := snd (write_text os (SVNRepoSync.target_of self c) (stdout cp) w2);
            calls := calls st ++ [cat_call] |})).
Proof.
  repeat apply conj.
  - apply parse_log_entry_known.
  - intros log_output. apply fold_parse_line_lines.
  - apply skipped_line_can_be_removed.
  - intros self acc c st H. by apply replay_other.
  - intros self c st H. by apply replay_skips_unknown.
  - intros self c st w1 w2 cp cat_call Ha Hmk Hcat Hcode.
    apply (replay_write_spec os self c st w1 w2 cp); auto.
Qed.

End UnknownActions.

(** C3, refuted as stated: the line [X foo.txt] that follows the marker
    [r1] is not in the output of the line parser. *)
Lemma unknown_action_line_not_retained :
  ~ exists c, In c (RepoSyncer.parse_log_entry Scenarios.unknown_action_log)
              /\ RepoSyncer.path c = "foo.txt".
Proof. intros (c & Hin & _). vm_compute in Hin. exact Hin. Qed.

Lemma unknown_action_dropped_or_skipped_witness :
  RepoSyncer.parse_log_entry
    ("r1" +:+ String RepoSyncer.line_feed
               ("X foo.txt" +:+ String RepoSyncer.line_feed "M bar.txt"))
  = RepoSyncer.parse_log_entry ("r1" +:+ String RepoSyncer.line_feed "M bar.txt")
  /\
  (let c := {| RepoSyncer.revision := Some "1"; RepoSyncer.action := "X";
               RepoSyncer.path := "foo.txt" |} in
   RepoSyncer.replay_change MemOS.os Scenarios.syncer [] c
     (MemOS.start Scenarios.x_world)
   = (Ok [], MemOS.start Scenarios.x_world))
  /\
  (let c := {| SVNRepoSync.path := "/x"; SVNRepoSync.action := "X" |} in
   SVNRepoSync.replay_change MemOS.os Scenarios.xml_syncer tt c
     (MemOS.start Scenarios.x_world)
   = (Ok tt, MemOS.start Scenarios.x_world))
  /\
  (let c := {| SVNRepoSync.path := "x"; SVNRepoSync.action := "REPLACE" |} in
   MemOS.files
     (world (snd (SVNRepoSync.replay_change MemOS.os Scenarios.xml_syncer tt c
                    (MemOS.start Scenarios.x_world)))) !! "/dst/x"
   = Some "x").
Proof.
  destruct (@unknown_action_dropped_or_skipped MemOS.World MemOS.os)
    as (_ & _ & Hdrop & Hline & Hxml & Hreplace).
  split; [|split; [|split]].
  - apply Hdrop; reflexivity.
  - intros c. apply Hline. unfold RepoSyncer.known_action. simpl.
    intros [H|[H|H]]; discriminate.
  - intros c. apply Hxml. unfold SVNRepoSync.known_action. simpl.
    intros [H|[H|[H|H]]]; discriminate.
  - intros c.
    eassert (H : SVNRepoSync.replay_change MemOS.os Scenarios.xml_syncer tt c
                   (MemOS.start Scenarios.x_world) = _).
    { eapply (Hreplace Scenarios.xml_syncer c (MemOS.start Scenarios.x_world));
        [reflexivity | split_pair | split_pair | run_mem]. }
    rewrite H. run_mem.
Defined.

(** ** Failure of one record *)

(** C1.  The log names two additions; the source holds the second file
    and not the first.  The copy of the first raises, and
    [RepoSyncer.sync_changes] returns [False] having started no child
    process but the log: the second file, whose replay alone succeeds,
    is not copied. *)
Theorem first_failure_aborts_the_replay :
  let a := {| RepoSyncer.revision := Some "1"; RepoSyncer.action := "A";
              RepoSyncer.path := "a.txt" |} in
  let b := {| RepoSyncer.revision := Some "1"; RepoSyncer.action := "A";
              RepoSyncer.path := "b.txt" |} in
  let st := MemOS.start Scenarios.missing_then_present_world in
  let run := RepoSyncer.sync_changes MemOS.os Scenarios.syncer st in
  RepoSyncer.parse_log_entry Scenarios.missing_then_present_log = [a; b]
  /\ fst (RepoSyncer.replay_change MemOS.os Scenarios.syncer [] a st)
     = Raise FileNotFoundError
  /\ fst run = Ok false
  /\ map verb_of (calls (snd run)) = ["log"]
  /\ MemOS.files (world (snd run)) !! "/dst/b.txt" = None
  /\ MemOS.files
       (world (snd (RepoSyncer.replay_change MemOS.os Scenarios.syncer [] b st)))
       !! "/dst/b.txt" = Some "b".
Proof. repeat split; run_mem. Qed.

(** ** The end-to-end scenario *)
Section Collected.
Context {W : Type} (os : OS W) (self : RepoSyncer.t).

(** A record that goes through either adds its target path to the
    list for the commit, or leaves list and state as they were. *)
Lemma replay_change_collects (acc acc' : list string) (c : RepoSyncer.Change)
    (st st' : St W) :
  RepoSyncer.replay_change os self acc c st = (Ok acc', st') ->
  acc' = acc ++ [join (RepoSyncer.repo2_path self) (RepoSyncer.path c)]
  \/ (acc' = acc /\ st' = st).
Proof.
  intros H. destruct (String.eqb (RepoSyncer.action c) "D") eqn:Hd.
  - apply String.eqb_eq in Hd.
    destruct (path_exists os (join (RepoSyncer.repo2_path self) (RepoSyncer.path c))
                (world st)) eqn:He.
    + rewrite (replay_delete_present _ _ _ _ _ Hd He) in H.
      destruct (spawn os _ (world st)) as [[cp|e] w]; inversion H. by left.
    + rewrite (replay_delete_absent _ _ _ _ _ Hd He) in H. inversion H. by right.
  - unfold RepoSyncer.replay_change in H. rewrite Hd in H.
    destruct (String.eqb (RepoSyncer.action c) "A"
              || String.eqb (RepoSyncer.action c) "M");
      [|inversion H; by right].
    unfold bind at 1 in H.
    destruct (Ioutil.ensure_dir os _ st) as [[[]|e] st1]; [|discriminate].
    unfold bind at 1 in H.
    destruct (Ioutil.copy_file os _ _ st1) as [[[]|e] st2]; [|discriminate].
    unfold bind at 1 in H.
    match type of H with
    | (let (_, _) := ?m in _) = _ => destruct m as [[[]|e] st3]; [|discriminate]
    end.
    inversion H. by left.
Qed.

End Collected.

(** C5, refuted as stated: in the end-to-end scenario the list of
    paths collected for the commit holds the target path of
    [foo/bar.txt] and nothing of [baz.txt]. *)
Lemma e2e_delete_path_not_collected :
  exists files,
    fst (for_each (RepoSyncer.replay_change MemOS.os Scenarios.syncer)
           (RepoSyncer.parse_log_entry Scenarios.e2e_log) []
           (MemOS.start Scenarios.e2e_world)) = Ok files
    /\ ~ (exists p, In p files /\ (p = "baz.txt" \/ p = "/dst/baz.txt")).
Proof.
  exists ["/dst/foo/bar.txt"; "/dst/foo/bar.txt"]. split; [run_mem|].
  intros (p & Hin & Hp). simpl in Hin.
  destruct Hp as [-> | ->]; destruct Hin as [H|[H|[]]]; discriminate.
Qed.

(** C5 (as amended).  In the end-to-end scenario [sync_changes] returns
    [True]; the target then holds [foo/bar.txt] with the content of the
    file of the source working copy and holds no [baz.txt]; the child
    processes are the log, one [add] and one [commit], and the commit
    is given the target path of [foo/bar.txt] twice, once for the
    addition and once for the modification.  The path of the delete is
    not collected: in general, a record that goes through either has
    its target path collected or has left list and state untouched. *)
Theorem e2e_replay_and_commit :
  (forall (W : Type) (os : OS W) (self : RepoSyncer.t) (acc acc' : list string)
          (c : RepoSyncer.Change) (st st' : St W),
      RepoSyncer.replay_change os self acc c st = (Ok acc', st') ->
      acc' = acc ++ [join (RepoSyncer.repo2_path self) (RepoSyncer.path c)]
      \/ (acc' = acc /\ st' = st))
  /\
  (let run := RepoSyncer.sync_changes MemOS.os Scenarios.syncer
                (MemOS.start Scenarios.e2e_world) in
   fst run = Ok true
   /\ MemOS.files (world (snd run)) !! "/dst/foo/bar.txt"
      = MemOS.files Scenarios.e2e_world !! "/src/foo/bar.txt"
   /\ MemOS.files (world (snd run)) !! "/dst/foo/bar.txt" = Some "content at r11"
   /\ MemOS.mem_exists "/dst/baz.txt" (world (snd run)) = false
   /\ map argv (calls (snd run))
      = [ ["svn"; "log"; "-l"; "100"; "--username"; "u"; "--password"; "p"];
          ["svn"; "add"; "/dst/foo/bar.txt"; "--username"; "u"; "--password"; "p"];
          ["svn"; "commit"; "-m"; "Synced changes from repo1";
           "/dst/foo/bar.txt"; "/dst/foo/bar.txt";
           "--username"; "u"; "--password"; "p"] ]).
Proof.
  split.
  - intros W os self acc acc' c st st'. apply replay_change_collects.
  - repeat split; run_mem.
Qed.

Lemma e2e_replay_and_commit_witness :
  let c := {| RepoSyncer.revision := Some "12"; RepoSyncer.action := "D";
              RepoSyncer.path := "baz.txt" |} in
  let st := MemOS.start Scenarios.e2e_world in
  let run := RepoSyncer.replay_change MemOS.os Scenarios.syncer
               ["/dst/foo/bar.txt"] c st in
  fst run = Ok ["/dst/foo/bar.txt"]
  /\ (["/dst/foo/bar.txt"] = ["/dst/foo/bar.txt"] ++ ["/dst/baz.txt"]
      \/ (["/dst/foo/bar.txt"] = ["/dst/foo/bar.txt"] /\ snd run = st)).
Proof.
  intros c st run. split; [run_mem|].
  destruct e2e_replay_and_commit as [Hgen _].
  apply (Hgen MemOS.World MemOS.os Scenarios.syncer ["/dst/foo/bar.txt"]
           ["/dst/foo/bar.txt"] c st (snd run)).
  subst run. split_pair.
Defined.

Lemma nothing_to_commit_reports_success_witness :
  exists st2,
    RepoSyncer.sync_changes MemOS.os Scenarios.syncer
      (MemOS.start Scenarios.empty_log_world) = (Ok true, st2)
    /\ exists cs, issued (MemOS.start Scenarios.empty_log_world) st2 cs
                  /\ Forall (fun c => verb_of c <> "commit") cs.
Proof.
  eexists.
  eapply (nothing_to_commit_reports_success MemOS.os Scenarios.syncer
            (MemOS.start Scenarios.empty_log_world));
    [split_pair | split_pair].
Defined.

Lemma credentials_trail_every_verb_witness :
  calls (snd (SVNClient.invoke MemOS.os
                (SVNClient.create_client "/wc" (Some "u") (Some "p"))
                (SVNClient.Status None) (MemOS.start Scenarios.x_world)))
  = [] ++ [{| argv := ["svn"; "status"] ++ ["--username"; "u"; "--password"; "p"];
              cwd := Some "/wc"; env := [] |}].
Proof.
  apply (credentials_trail_every_verb MemOS.os
           (SVNClient.create_client "/wc" (Some "u") (Some "p"))
           (SVNClient.Status None) (MemOS.start Scenarios.x_world) "u" "p");
    (reflexivity || discriminate).
Defined.

Lemma update_and_commit_fatal_log_fetch_not_witness :
  fst (RepoSyncer.main MemOS.os "/src" "/dst" (Some "u") (Some "p")
         (MemOS.start Scenarios.update_fails_world))
  = Ok RepoSyncer.FailedToUpdate
  /\ (fst (RepoSyncer.main Scenarios.target_update_fails_os "/src" "/dst"
              (Some "u") (Some "p") (MemOS.start Scenarios.x_world))
      = Ok RepoSyncer.FailedToUpdate
      /\ map cwd (calls (snd (RepoSyncer.main Scenarios.target_update_fails_os
                                 "/src" "/dst" (Some "u") (Some "p")
                                 (MemOS.start Scenarios.x_world))))
         = [Some "/src"; Some "/dst"])
  /\ fst (SVNRepoSync.script MemOS.os Scenarios.xml_syncer
            (MemOS.start Scenarios.update_fails_world))
     = Raise (Exception "SVN update failed: E170013")
  /\ fst (RepoSyncer.sync_changes MemOS.os Scenarios.syncer
            (MemOS.start Scenarios.commit_fails_world)) = Ok false
  /\ fst (SVNRepoSync.commit_changes MemOS.os Scenarios.xml_syncer "m"
            (MemOS.start Scenarios.commit_fails_world))
     = Raise (Exception "SVN commit failed: E160028")
  /\ fst (RepoSyncer.sync_changes MemOS.os Scenarios.syncer
            (MemOS.start Scenarios.log_fails_world)) = Ok true
  /\ fst (SVNRepoSync.get_recent_commits MemOS.os Scenarios.xml_syncer "/src" 100
            (MemOS.start Scenarios.log_fails_world)) = Ok [].
Proof.
  destruct (@update_and_commit_fatal_log_fetch_not MemOS.World MemOS.os)
    as (Hu & _ & Hu' & Hc & Hc' & Hl & Hl').
  destruct (@update_and_commit_fatal_log_fetch_not MemOS.World
              Scenarios.target_update_fails_os)
    as (_ & Hu2 & _).
  repeat apply conj.
  - erewrite (Hu "/src" "/dst" (Some "u") (Some "p")
                (MemOS.start Scenarios.update_fails_world));
      [idtac | split_pair | vm_compute; discriminate]; run_mem.
  - erewrite (Hu2 "/src" "/dst" (Some "u") (Some "p")
                (MemOS.start Scenarios.x_world));
      [idtac | split_pair | run_mem | split_pair | vm_compute; discriminate];
      run_mem.
  - erewrite (Hu2 "/src" "/dst" (Some "u") (Some "p")
                (MemOS.start Scenarios.x_world));
      [idtac | split_pair | run_mem | split_pair | vm_compute; discriminate];
      run_mem.
  - erewrite (Hu' Scenarios.xml_syncer (MemOS.start Scenarios.update_fails_world));
      [idtac | split_pair | vm_compute; discriminate]; run_mem.
  - erewrite (Hc Scenarios.syncer (MemOS.start Scenarios.commit_fails_world));
      [idtac | split_pair | split_pair | discriminate | split_pair
       | vm_compute; discriminate]; run_mem.
  - erewrite (Hc' Scenarios.xml_syncer "m" (MemOS.start Scenarios.commit_fails_world));
      [idtac | split_pair | split_pair | vm_compute; discriminate]; run_mem.
  - edestruct (Hl Scenarios.syncer (MemOS.start Scenarios.log_fails_world))
      as [_ Hsync]; [split_pair | vm_compute; discriminate |].
    exact (f_equal fst (Hsync eq_refl)).
  - edestruct (Hl' Scenarios.xml_syncer (MemOS.start Scenarios.log_fails_world)
                 (MemOS.start Scenarios.log_fails_world))
      as [Hget _]; [split_pair | vm_compute; discriminate |].
    exact (f_equal fst Hget).
Defined.

(** * Further properties *)

(** ** The client: one process per call, and what a call returns *)
Section ClientCalls.
Context {W : Type} (os : OS W) (self : SVNClient.t).
Import SVNClient.

Lemma bind_run_command {B} (command : list string)
    (k : string * string * Z -> M W B) (st : St W) :
  bind (_run_command os self command) k st
  = match spawn os (call_of self command) (world st) with
    | (Ok cp, w) =>
        k (strip (stdout cp), strip (stderr cp), returncode cp)
          (after st (call_of self command) w)
    | (Raise e, w) => (Raise e, after st (call_of self command) w)
    end.
Proof.
  unfold bind. rewrite run_command_spec.
  by destruct (spawn os _ (world st)) as [[cp|e] w].
Qed.

(** Every method, in one equation: it starts the process of its verb
    arguments followed by the credentials, and returns from what the
    process left; an exception at the start of the process goes
    through. *)
Lemma invoke_spec (i : Invocation) (st : St W) :
  invoke os self i st
  = match spawn os (call_of self (verb_arguments i)) (world st) with
    | (Ok cp, w) =>
        (Ok (result_of i cp), after st (call_of self (verb_arguments i)) w)
    | (Raise e, w) => (Raise e, after st (call_of self (verb_arguments i)) w)
    end.
Proof.
  assert (Hlimit : forall (limit : option Z) (command : list string),
             match limit with
             | Some n => if n =? 0 then command else command ++ ["-l"; str_of_int n]
             | None => command
             end
             = command ++ match limit with
                          | Some n => if decide (n = 0) then [] else ["-l"; str_of_int n]
                          | None => []
                          end).
  { intros [n|] command; [|by rewrite app_nil_r].
    destruct (Z.eqb_spec n 0); case_decide; try contradiction;
      [by rewrite app_nil_r | reflexivity]. }
  destruct i; simpl; unfold bind at 1.
  - unfold checkout. rewrite optional_spec, bind_run_command. simpl.
    by destruct (spawn os _ (world st)) as [[cp|e] w].
  - unfold update. rewrite optional_spec, bind_run_command. simpl.
    by destruct (spawn os _ (world st)) as [[cp|e] w].
  - unfold commit.
    replace (match paths with Some (p0 :: ps) => _ | _ => _ end)
      with (["svn"; "commit"; "-m"; message] ++ default [] paths)
      by (destruct paths as [[|? ?]|]; reflexivity).
    rewrite bind_run_command. simpl.
    by destruct (spawn os _ (world st)) as [[cp|e] w].
  - unfold add. rewrite bind_run_command. simpl.
    by destruct (spawn os _ (world st)) as [[cp|e] w].
  - unfold delete.
    replace ((if force then _ else _) ++ paths)
      with ("svn" :: "delete" :: flag force "--force" ++ paths)
      by (destruct force; reflexivity).
    rewrite bind_run_command.
    by destruct (spawn os _ (world st)) as [[cp|e] w].
  - unfold status. rewrite optional_spec, bind_run_command. simpl.
    by destruct (spawn os _ (world st)) as [[cp|e] w].
  - unfold log. rewrite optional_spec, Hlimit, <- app_assoc, bind_run_command.
    simpl. by destruct (spawn os _ (world st)) as [[cp|e] w].
  - unfold diff. rewrite optional_spec.
    replace ((if truthy revision then _ else _) ++ optional path)
      with (verb_arguments (Diff path revision)).
    2:{ simpl. destruct revision as [r|]; simpl; [|reflexivity].
        destruct (String.eqb r ""); reflexivity. }
    rewrite bind_run_command.
    by destruct (spawn os _ (world st)) as [[cp|e] w].
  - unfold revert.
    replace ((if recursive then _ else _) ++ paths)
      with ("svn" :: "revert" :: flag recursive "-R" ++ paths)
      by (destruct recursive; reflexivity).
    rewrite bind_run_command.
    by destruct (spawn os _ (world st)) as [[cp|e] w].
  - unfold cleanup. rewrite bind_run_command.
    by destruct (spawn os _ (world st)) as [[cp|e] w].
  - unfold info. rewrite optional_spec, bind_run_command. simpl.
    by destruct (spawn os _ (world st)) as [[cp|e] w].
  - unfold list_files. rewrite optional_spec, bind_run_command. simpl.
    by destruct (spawn os _ (world st)) as [[cp|e] w].
Qed.

(** X1.  Whatever the credentials, a call of a method makes exactly
    one attempt to start a child process (one call of [Popen], whether
    or not the process can be started), in the working directory of
    the client, with the verb arguments followed by the credentials;
    each of the two credentials is appended on its own, only when it is
    non-empty, so that a client without user name and password hands
    over the bare verb arguments, and one with a password alone appends
    [--password] alone. *)
Theorem one_process_per_call_any_credentials (i : Invocation) (st : St W) :
  calls (snd (invoke os self i st))
  = calls st ++ [{| argv := verb_arguments i ++ credentials self;
                    cwd := Some (working_dir self); env := [] |}]
  /\ (truthy (username self) = false -> truthy (password self) = false ->
      credentials self = [])
  /\ (truthy (username self) = false -> truthy (password self) = true ->
      credentials self = ["--password"; text (password self)]).
Proof.
  split; [|split].
  - rewrite invoke_spec. fold (call_of self (verb_arguments i)).
    by destruct (spawn os _ (world st)) as [[cp|e] w].
  - unfold credentials. by intros -> ->.
  - unfold credentials. by intros -> ->.
Qed.

(** X2.  When the child process completes, the methods [checkout],
    [update], [commit], [add], [delete], [revert] and [cleanup] return
    whether its exit status is 0, and [status], [log], [diff], [info]
    and [list_files] return its output, stripped, whatever the exit
    status: a failure of these five is not reported.  When the process
    cannot be started, the exception leaves the method. *)
Theorem call_result (i : Invocation) (st : St W) :
  (forall (cp : CompletedProcess) (w : W),
      spawn os (call_of self (verb_arguments i)) (world st) = (Ok cp, w) ->
      fst (invoke os self i st)
      = Ok (if returns_text i then inr (strip (stdout cp))
            else inl (returncode cp =? 0)))
  /\ (forall (e : exn) (w : W),
      spawn os (call_of self (verb_arguments i)) (world st) = (Raise e, w) ->
      fst (invoke os self i st) = Raise e).
Proof.
  split; intros ? w H; rewrite invoke_spec, H; reflexivity.
Qed.

End ClientCalls.

Lemma one_process_per_call_any_credentials_witness :
  calls (snd (SVNClient.invoke MemOS.os
                (SVNClient.create_client "/wc" (Some "") (Some "p"))
                (SVNClient.Log (Some 5) None) (MemOS.start Scenarios.x_world)))
  = [{| argv := ["svn"; "log"; "-l"; "5"; "--password"; "p"];
        cwd := Some "/wc"; env := [] |}].
Proof.
  destruct (one_process_per_call_any_credentials MemOS.os
              (SVNClient.create_client "/wc" (Some "") (Some "p"))
              (SVNClient.Log (Some 5) None) (MemOS.start Scenarios.x_world))
    as (Hcalls & _ & Hpw).
  rewrite Hcalls, (Hpw eq_refl eq_refl). reflexivity.
Defined.

Lemma call_result_witness :
  fst (SVNClient.invoke MemOS.os
         (SVNClient.create_client "/src" None None)
         (SVNClient.Log (Some 100) None) (MemOS.start Scenarios.log_fails_world))
  = Ok (inr "")
  /\ fst (SVNClient.invoke MemOS.os
            (SVNClient.create_client "/src" None None)
            (SVNClient.Update None) (MemOS.start Scenarios.no_svn_world))
     = Raise FileNotFoundError.
Proof.
  split.
  - destruct (call_result MemOS.os (SVNClient.create_client "/src" None None)
                (SVNClient.Log (Some 100) None)
                (MemOS.start Scenarios.log_fails_world)) as [Hok _].
    erewrite Hok; [|split_pair]. reflexivity.
  - destruct (call_result MemOS.os (SVNClient.create_client "/src" None None)
                (SVNClient.Update None)
                (MemOS.start Scenarios.no_svn_world)) as [_ Hraise].
    eapply Hraise. split_pair.
Defined.

(** ** [sync_between_repos.py]: what its replay does and does not *)
Section BlockReplay.
Context {W : Type} (os : OS W) (self : SVNRepoSync.t).
Import SVNRepoSync.

Lemma for_each_app {A B} (body : B -> A -> M W B) (xs ys : list A) (acc : B)
    (st : St W) :
  for_each body (xs ++ ys) acc st
  = bind (for_each body xs acc) (for_each body ys) st.
Proof.
  revert acc st. induction xs as [|x xs IH]; intros acc st; [reflexivity|].
  simpl. unfold bind.
  destruct (body acc x st) as [[acc'|e] st1]; [|reflexivity].
  rewrite IH. reflexivity.
Qed.

(** X8.  [sync_changes] returns normally on every list of commits, in
    every state and on every system: whatever fails while a change is
    replayed is caught there.  So the replay of a list in two parts is
    the replay of the second part in the state the first part left. *)
Theorem replay_never_raises_and_composes (first later : list Commit) (st : St W) :
  fst (sync_changes os self first st) = Ok tt
  /\ sync_changes os self (first ++ later) st
     = sync_changes os self later (snd (sync_changes os self first st)).
Proof.
  pose proof (sync_changes_never_raises os self first st) as H.
  split; [exact H|].
  unfold sync_changes in *. rewrite for_each_app. unfold bind.
  destruct (for_each (replay_commit os self) first tt st) as [[[]|e] st1];
    simpl in *; [reflexivity | discriminate].
Qed.

Lemma sync_changes_without_paths (commits : list Commit) (st : St W) :
  Forall (fun c => changed_paths c = []) commits ->
  sync_changes os self commits st = (Ok tt, st).
Proof.
  intros H. revert st. induction H as [|c commits Hc _ IH]; intros st;
    [reflexivity|].
  unfold sync_changes in *. simpl. unfold bind, replay_commit at 1.
  rewrite Hc. simpl. apply IH.
Qed.

Lemma get_recent_commits_without_paths (repo_url : string) (limit : Z)
    (st st1 : St W) (commits : list Commit) :
  get_recent_commits os self repo_url limit st = (Ok commits, st1) ->
  Forall (fun c => changed_paths c = []) commits.
Proof.
  unfold get_recent_commits, bind.
  destruct (run_svn_command os self _ _ st) as [[[[code out] err]|e] s1];
    [|discriminate].
  destruct (negb (code =? 0)); [intros [= <- _]; constructor|].
  destruct (parse_xml out) as [cs|e] eqn:E; [|discriminate].
  intros [= <- _]. by apply (parse_xml_never_yields_a_path out).
Qed.

(** X9.  Whatever [get_recent_commits] returns, replaying it does
    nothing: the commits it returns carry no changed path, so
    [sync_changes] starts no child process and leaves every state as it
    was. *)
Theorem replay_of_fetched_commits_is_idle (repo_url : string) (limit : Z)
    (st st1 : St W) (commits : list Commit) :
  get_recent_commits os self repo_url limit st = (Ok commits, st1) ->
  Forall (fun c => changed_paths c = []) commits
  /\ forall st2, sync_changes os self commits st2 = (Ok tt, st2).
Proof.
  intros H. apply get_recent_commits_without_paths in H.
  split; [exact H|]. intros st2. by apply sync_changes_without_paths.
Qed.

Lemma commit_changes_calls (message : string) (st st' : St W) (r : Res unit) :
  commit_changes os self message st = (r, st') ->
  issued st st' [add_call self]
  \/ issued st st' [add_call self; commit_call self message].
Proof.
  unfold commit_changes, try_except, bind at 1.
  destruct (run_svn_command os self _ _ st) as [[x|e] s1] eqn:E1;
    apply run_svn_command_issued in E1.
  2:{ unfold raise. intros [= <- <-]. by left. }
  unfold bind.
  destruct (run_svn_command os self _ _ s1) as [[[[c o] e]|e] s2] eqn:E2;
    apply run_svn_command_issued in E2;
    pose proof (issued_trans _ _ _ _ _ E1 E2) as E12;
    [destruct (c =? 0)|]; unfold ret, raise; intros [= <- <-]; by right.
Qed.

(** X10.  The attempts of the script to start a child process (the
    calls of [subprocess.run], whether or not the process can be
    started) are, in this order and up to the point where it stops,
    [svn update], [svn log], [svn add --force .] and [svn commit]: no
    run of the script ever attempts [svn cat] or [svn delete]. *)
Theorem script_never_cats_nor_deletes (st st' : St W) (r : Res unit) :
  script os self st = (r, st') ->
  exists cs,
    issued st st' cs
    /\ cs `prefix_of` [update_call self; log_call self; add_call self;
                        commit_call self default_message].
Proof.
  unfold script, bind at 1.
  destruct (update_repo os self _ st) as [[[]|e] s1] eqn:E1;
    apply update_repo_issued in E1.
  2:{ intros [= <- <-]. exists [update_call self]. split; [exact E1|].
      by eexists. }
  unfold bind at 1.
  destruct (get_recent_commits os self _ _ s1) as [[commits|e] s2] eqn:E2.
  2:{ apply get_recent_commits_issued in E2.
      intros [= <- <-]. exists ([update_call self] ++ [log_call self]).
      split; [exact (issued_trans _ _ _ _ _ E1 E2) | by eexists]. }
  pose proof (get_recent_commits_without_paths _ _ _ _ _ E2) as Hidle.
  apply get_recent_commits_issued in E2.
  pose proof (issued_trans _ _ _ _ _ E1 E2) as E12.
  unfold bind. rewrite (sync_changes_without_paths commits s2 Hidle).
  intros E4. destruct (commit_changes_calls _ _ _ _ E4) as [H4|H4];
    eexists; (split; [exact (issued_trans _ _ _ _ _ E12 H4)|]); by eexists.
Qed.

End BlockReplay.

Lemma replay_of_fetched_commits_is_idle_witness :
  fst (SVNRepoSync.get_recent_commits MemOS.os Scenarios.xml_syncer "/src" 100
         (MemOS.start Scenarios.xml_no_paths_world))
  = Ok [{| SVNRepoSync.revision := "5"; SVNRepoSync.changed_paths := [] |}]
  /\ SVNRepoSync.sync_changes MemOS.os Scenarios.xml_syncer
       [{| SVNRepoSync.revision := "5"; SVNRepoSync.changed_paths := [] |}]
       (MemOS.start Scenarios.x_world)
     = (Ok tt, MemOS.start Scenarios.x_world).
Proof.
  split; [run_mem|].
  eapply (replay_of_fetched_commits_is_idle MemOS.os Scenarios.xml_syncer
            "/src" 100 (MemOS.start Scenarios.xml_no_paths_world)).
  split_pair.
Defined.

Lemma script_never_cats_nor_deletes_witness :
  exists cs,
    issued (MemOS.start Scenarios.xml_no_paths_world)
      (snd (SVNRepoSync.script MemOS.os Scenarios.xml_syncer
              (MemOS.start Scenarios.xml_no_paths_world))) cs
    /\ cs `prefix_of` [SVNRepoSync.update_call Scenarios.xml_syncer;
                        SVNRepoSync.log_call Scenarios.xml_syncer;
                        SVNRepoSync.add_call Scenarios.xml_syncer;
                        SVNRepoSync.commit_call Scenarios.xml_syncer
                          SVNRepoSync.default_message].
Proof.
  eapply (script_never_cats_nor_deletes MemOS.os Scenarios.xml_syncer
            (MemOS.start Scenarios.xml_no_paths_world)).
  apply surjective_pairing.
Defined.

(** ** [repo_sync.py]: verbs, exceptions, collected paths *)
Section LineReplay.
Context {W : Type} (os : OS W).
Import RepoSyncer.

(** X11.  Every child process of [main] has one of the verbs [update],
    [log], [add], [delete] and [commit]: a run never checks out,
    reverts or cleans up, whatever happens to it. *)
Theorem main_starts_only_five_verbs (r1 r2 : string) (u p : option string)
    (st st' : St W) (r : Res Outcome) :
  main os r1 r2 u p st = (r, st') ->
  exists cs,
    issued st st' cs
    /\ Forall (fun c => In (verb_of c) ["update"; "log"; "add"; "delete"; "commit"]) cs.
Proof.
  intros H. destruct (main_issued os _ _ _ _ _ _ _ H) as (cs & Hcs & Hv).
  exists cs. split; [exact Hcs|]. eapply Forall_impl; [exact Hv|].
  intros c [Hc|[Hc|[Hc|[Hc|Hc]]]]; rewrite Hc; simpl; tauto.
Qed.

(** X12.  When a child process cannot be started: in [sync_changes] the
    exception of the log command is caught and the result is [False],
    but in [main] the exception of the first update is not caught and
    leaves [main]. *)
Theorem process_start_failure_caught_in_sync_not_in_main :
  (forall (self : t) (st : St W) (e : exn) (w : W),
      spawn os (log_call self) (world st) = (Raise e, w) ->
      sync_changes os self st = (Ok false, after st (log_call self) w))
  /\
  (forall (r1 r2 : string) (u p : option string) (st : St W) (e : exn) (w : W),
      let self := __init__ r1 r2 u p in
      spawn os (update_call (repo1 self)) (world st) = (Raise e, w) ->
      main os r1 r2 u p st = (Raise e, after st (update_call (repo1 self)) w)).
Proof.
  split.
  - intros self st e w H. unfold sync_changes, try_except.
    by rewrite sync_changes_body_spec, H.
  - intros r1 r2 u p st e w self H. unfold main, bind at 1, update_repos, bind at 1.
    fold self. by rewrite update_spec, H.
Qed.

Lemma replay_collects_sublist (self : t) (changes : list Change)
    (acc files : list string) (st st' : St W) :
  for_each (replay_change os self) changes acc st = (Ok files, st') ->
  exists kept,
    kept `sublist_of` changes /\ files = acc ++ map (target self) kept.
Proof.
  revert acc st. induction changes as [|c changes IH]; intros acc st H.
  - inversion H; subst. exists []. split; [constructor | by rewrite app_nil_r].
  - simpl in H. unfold bind in H.
    destruct (replay_change os self acc c st) as [[acc1|e] st1] eqn:E;
      [|discriminate].
    destruct (IH _ _ H) as (kept & Hsub & ->).
    destruct (replay_change_collects _ _ _ _ _ _ _ E) as [-> | [-> _]].
    + exists (c :: kept). split; [by constructor|].
      rewrite <- app_assoc. reflexivity.
    + exists kept. split; [by constructor | reflexivity].
Qed.

(** X13.  The paths collected for the commit are target paths of
    records of the log, in the order of the log and one per record
    kept: the list is the one the loop started with followed by the
    targets of a sub-sequence of the records. *)
Theorem collected_paths_follow_the_log (self : t) (changes : list Change)
    (acc files : list string) (st st' : St W) :
  for_each (replay_change os self) changes acc st = (Ok files, st') ->
  exists kept,
    kept `sublist_of` changes
    /\ files = acc ++ map (fun c => join (repo2_path self) (path c)) kept.
Proof. apply replay_collects_sublist. Qed.

Lemma join_absolute (a b : string) : startswith b "/" = true -> join a b = b.
Proof. unfold join. by intros ->. Qed.

(** X14.  For a record whose path starts with a slash the two
    repository roots play no part: the file is copied from that path to
    that same path, and the replay is the same for any two syncers with
    the same target client. *)
Theorem absolute_path_ignores_the_roots (self self' : t) (acc : list string)
    (c : Change) (st : St W) :
  startswith (path c) "/" = true ->
  repo2 self = repo2 self' ->
  join (repo1_path self) (path c) = path c
  /\ join (repo2_path self) (path c) = path c
  /\ replay_change os self acc c st = replay_change os self' acc c st.
Proof.
  intros Habs Hrepo. repeat split; try by apply join_absolute.
  unfold replay_change. rewrite !join_absolute by exact Habs. by rewrite Hrepo.
Qed.

(** X16.  The exit status of [svn add] and of [svn delete] is
    not looked at during the replay: once the process has completed,
    with whatever status, the path is collected for the commit and the
    loop goes on. *)
Theorem add_and_delete_status_is_ignored (self : t) (acc : list string)
    (c : Change) :
  (forall (st s1 s2 : St W) (cp : CompletedProcess) (w : W),
      action c = "A" ->
      Ioutil.ensure_dir os (dirname (target self c)) st = (Ok tt, s1) ->
      Ioutil.copy_file os (join (repo1_path self) (path c)) (target self c) s1
        = (Ok tt, s2) ->
      spawn os (add_call self (target self c)) (world s2) = (Ok cp, w) ->
      replay_change os self acc c st
      = (Ok (acc ++ [target self c]), after s2 (add_call self (target self c)) w))
  /\
  (forall (st : St W) (cp : CompletedProcess) (w : W),
      action c = "D" ->
      path_exists os (target self c) (world st) = true ->
      spawn os (delete_call self (target self c)) (world st) = (Ok cp, w) ->
      replay_change os self acc c st
      = (Ok (acc ++ [target self c]), after st (delete_call self (target self c)) w)).
Proof.
  split.
  - intros st s1 s2 cp w Ha He Hc Hs. unfold replay_change, target in *.
    rewrite Ha. simpl. unfold bind at 1. rewrite He.
    unfold bind at 1. rewrite Hc. unfold bind. rewrite add_spec.
    unfold add_call in *.
    change (["svn"; "add"] ++ [join (repo2_path self) (path c)])
      with ["svn"; "add"; join (repo2_path self) (path c)].
    by rewrite Hs.
  - intros st cp w Ha He Hs. unfold target in *.
    rewrite (replay_delete_present os self acc c st Ha He). by rewrite Hs.
Qed.

(** X19.  When the replay has collected paths, [sync_changes] starts
    one commit for all of them, with the fixed message, and returns
    whether the exit status of that commit is 0. *)
Theorem sync_result_is_the_commit_status (self : t) (st st2 : St W)
    (cp cp' : CompletedProcess) (w w3 : W) (files : list string) :
  spawn os (log_call self) (world st) = (Ok cp, w) ->
  for_each (replay_change os self) (parse_log_entry (strip (stdout cp))) []
    (after st (log_call self) w) = (Ok files, st2) ->
  files <> [] ->
  spawn os (commit_call self files) (world st2) = (Ok cp', w3) ->
  sync_changes os self st
  = (Ok (returncode cp' =? 0),
     after st2
       {| argv := ["svn"; "commit"; "-m"; "Synced changes from repo1"] ++ files
                  ++ SVNClient.credentials (repo2 self);
          cwd := Some (SVNClient.working_dir (repo2 self));
          env := [] |} w3).
Proof.
  intros Hlog Hrep Hf Hc.
  unfold sync_changes, try_except. rewrite sync_changes_body_spec, Hlog, Hrep.
  destruct files as [|f fs]; [contradiction|].
  rewrite commit_spec by done. by rewrite Hc.
Qed.

(** X20.  [update_repos] updates the first repository, then the second
    only if the first update exited with status 0, and returns [True]
    exactly when both did. *)
Theorem update_repos_short_circuits (self : t) (st : St W)
    (cp : CompletedProcess) (w : W) :
  spawn os (update_call (repo1 self)) (world st) = (Ok cp, w) ->
  (returncode cp <> 0 ->
   update_repos os self st = (Ok false, after st (update_call (repo1 self)) w))
  /\
  (returncode cp = 0 ->
   forall (cp' : CompletedProcess) (w' : W),
     spawn os (update_call (repo2 self)) w = (Ok cp', w') ->
     update_repos os self st
     = (Ok (returncode cp' =? 0),
        after (after st (update_call (repo1 self)) w) (update_call (repo2 self)) w')).
Proof.
  intros H. unfold update_repos, bind. rewrite update_spec, H. split.
  - intros Hcode. by destruct (Z.eqb_spec (returncode cp) 0).
  - intros Hcode cp' w' H'. rewrite Hcode. simpl.
    rewrite update_spec. simpl. by rewrite H'.
Qed.

End LineReplay.

(** ** [sync_between_repos.py]: paths and stages *)
Section BlockStages.
Context {W : Type} (os : OS W) (self : SVNRepoSync.t).
Import SVNRepoSync.

Lemma lstrip_char_head (x : ascii) (s : string) :
  startswith (lstrip_char x s) (String x "") = false.
Proof.
  induction s as [|c s IH]; [reflexivity|]. simpl.
  destruct (Ascii.eqb_spec c x) as [->|Hne]; [exact IH|].
  unfold startswith. simpl. by destruct (ascii_dec x c) as [->|].
Qed.

Lemma prefix_self_app (a b : string) : String.prefix a (a +:+ b) = true.
Proof.
  induction a as [|c a IH]; [by destruct ("" +:+ b)|].
  change (String c a +:+ b) with (String c (a +:+ b)). simpl.
  by destruct (ascii_dec c c).
Qed.

(** X15.  The content write of a change goes to a path under the
    root of the target working copy, as a text: the leading slashes of
    the path are dropped before the join, so the root is a prefix of the
    path written.  The source is joined without that care: for a path
    that starts with a slash, [svn cat] is given the bare path and the
    URL of the source repository is dropped. *)
Theorem destination_stays_under_the_target_root (change : ChangedPath)
    (st : St W) (w1 w2 : W) (cp : CompletedProcess) :
  action change = "ADD" \/ action change = "MODIFY" \/ action change = "REPLACE" ->
  makedirs os (dirname (target_of self change)) true (world st) = (Ok tt, w1) ->
  spawn os (cat_call self change) w1 = (Ok cp, w2) ->
  returncode cp = 0 ->
  let written := join (repo2_path self) (lstrip_char "/" (path change)) in
  String.prefix (repo2_path self) written = true
  /\ replay_change os self tt change st
     = (Ok tt,
        {| world := snd (write_text os written (stdout cp) w2);
           calls := calls st ++ [cat_call self change] |})
  /\ (startswith (path change) "/" = true ->
      argv (cat_call self change) = ["svn"; "cat"; path change]).
Proof.
  intros Ha Hmk Hcat Hcode written. subst written. repeat split.
  - unfold join. rewrite lstrip_char_head.
    destruct (_ || _); apply prefix_self_app.
  - by apply (replay_write_spec os self change st w1 w2 cp).
  - intros Habs. unfold cat_call, svn_call. simpl. by rewrite join_absolute.
Qed.

(** X17.  When [svn cat] exits with a non-zero status nothing is
    written: the loop body returns normally in the world the command
    left, the directory of the destination having been made before. *)
Theorem failed_cat_writes_nothing (change : ChangedPath) (st : St W)
    (w1 w2 : W) (cp : CompletedProcess) :
  action change = "ADD" \/ action change = "MODIFY" \/ action change = "REPLACE" ->
  makedirs os (dirname (target_of self change)) true (world st) = (Ok tt, w1) ->
  spawn os (cat_call self change) w1 = (Ok cp, w2) ->
  returncode cp <> 0 ->
  replay_change os self tt change st
  = (Ok tt, {| world := w2; calls := calls st ++ [cat_call self change] |}).
Proof.
  intros Ha Hmk Hcat Hcode. unfold replay_change.
  replace (String.eqb (action change) "ADD" || String.eqb (action change) "MODIFY"
           || String.eqb (action change) "REPLACE") with true
    by (destruct Ha as [-> | [-> | ->]]; reflexivity).
  unfold try_except, bind at 1, lift_os at 1. fold (target_of self change).
  rewrite Hmk. unfold bind. rewrite run_svn_command_spec. simpl.
  fold (cat_call self change). rewrite Hcat.
  by destruct (Z.eqb_spec (returncode cp) 0).
Qed.

(** X18.  In [commit_changes] the exit status of [svn add --force .]
    is not looked at: the commit is started all the same, and its
    exit status alone decides between a normal return and the
    exception. *)
Theorem commit_follows_a_failed_add (message : string) (st : St W)
    (cpa cp : CompletedProcess) (w1 w2 : W) :
  spawn os (add_call self) (world st) = (Ok cpa, w1) ->
  spawn os (commit_call self message) w1 = (Ok cp, w2) ->
  commit_changes os self message st
  = (if returncode cp =? 0 then Ok tt
     else Raise (Exception ("SVN commit failed: " +:+ stderr cp)),
     after (after st (add_call self) w1) (commit_call self message) w2).
Proof.
  intros Ha Hc. unfold commit_changes, try_except, bind at 1.
  rewrite run_svn_command_spec. fold (add_call self). rewrite Ha.
  unfold bind. rewrite run_svn_command_spec. fold (commit_call self message).
  simpl. rewrite Hc. by destruct (returncode cp =? 0).
Qed.

(** X21.  A missing [svn] binary is turned into the exit status 1 with
    the message [svn command not found]: the script then ends on the
    exception of [update_repo] with that message, while
    [get_recent_commits] alone returns the empty list.  Any other
    exception at the start of the process leaves [run_svn_command]. *)
Theorem missing_binary_is_an_exit_status (command : list string)
    (repo_path : option string) (st : St W) (w : W) :
  (spawn os (svn_call self command repo_path) (world st)
     = (Raise FileNotFoundError, w) ->
   run_svn_command os self command repo_path st
   = (Ok (1, "", "svn command not found"),
      after st (svn_call self command repo_path) w))
  /\ (forall e, e <> FileNotFoundError ->
      spawn os (svn_call self command repo_path) (world st) = (Raise e, w) ->
      run_svn_command os self command repo_path st
      = (Raise e, after st (svn_call self command repo_path) w))
  /\ (spawn os (update_call self) (world st) = (Raise FileNotFoundError, w) ->
      script os self st
      = (Raise (Exception "SVN update failed: svn command not found"),
         after st (update_call self) w))
  /\ (spawn os (log_call self) (world st) = (Raise FileNotFoundError, w) ->
      get_recent_commits os self (repo1_url self) 100 st
      = (Ok [], after st (log_call self) w)).
Proof.
  repeat apply conj.
  - intros H. by rewrite run_svn_command_spec, H.
  - intros e He H. rewrite run_svn_command_spec, H. by destruct e.
  - intros H. unfold script, bind at 1, update_repo, bind at 1.
    rewrite run_svn_command_spec. fold (update_call self). by rewrite H.
  - intros H. unfold get_recent_commits, bind.
    change (str_of_int 100) with "100".
    rewrite run_svn_command_spec. fold (log_call self). by rewrite H.
Qed.

End BlockStages.

(** Instances on the system in memory. *)

Lemma main_starts_only_five_verbs_witness :
  exists cs,
    issued (MemOS.start Scenarios.e2e_world)
      (snd (RepoSyncer.main MemOS.os "/src" "/dst" (Some "u") (Some "p")
              (MemOS.start Scenarios.e2e_world))) cs
    /\ Forall (fun c => In (verb_of c) ["update"; "log"; "add"; "delete"; "commit"]) cs.
Proof.
  eapply (main_starts_only_five_verbs MemOS.os "/src" "/dst" (Some "u") (Some "p")).
  apply surjective_pairing.
Defined.

Lemma process_start_failure_caught_in_sync_not_in_main_witness :
  fst (RepoSyncer.sync_changes MemOS.os Scenarios.syncer
         (MemOS.start Scenarios.no_svn_world)) = Ok false
  /\ fst (RepoSyncer.main MemOS.os "/src" "/dst" (Some "u") (Some "p")
            (MemOS.start Scenarios.no_svn_world)) = Raise FileNotFoundError.
Proof.
  destruct (@process_start_failure_caught_in_sync_not_in_main MemOS.World MemOS.os)
    as [Hsync Hmain].
  split.
  - erewrite Hsync; [reflexivity | split_pair].
  - erewrite (Hmain "/src" "/dst" (Some "u") (Some "p")); [reflexivity | split_pair].
Defined.

Lemma collected_paths_follow_the_log_witness :
  exists kept,
    kept `sublist_of` RepoSyncer.parse_log_entry Scenarios.e2e_log
    /\ ["/dst/foo/bar.txt"; "/dst/foo/bar.txt"]
       = [] ++ map (fun c => join "/dst" (RepoSyncer.path c)) kept.
Proof.
  eapply (collected_paths_follow_the_log MemOS.os Scenarios.syncer
            (RepoSyncer.parse_log_entry Scenarios.e2e_log) []
            ["/dst/foo/bar.txt"; "/dst/foo/bar.txt"]
            (MemOS.start Scenarios.e2e_world)).
  split_pair.
Defined.

Lemma absolute_path_ignores_the_roots_witness :
  let c := {| RepoSyncer.revision := Some "1"; RepoSyncer.action := "A";
              RepoSyncer.path := "/src/a.txt" |} in
  join "/elsewhere" (RepoSyncer.path c) = "/src/a.txt"
  /\ RepoSyncer.replay_change MemOS.os Scenarios.syncer [] c
       (MemOS.start Scenarios.x_world)
     = RepoSyncer.replay_change MemOS.os
         (RepoSyncer.__init__ "/elsewhere" "/dst" (Some "u") (Some "p")) [] c
         (MemOS.start Scenarios.x_world).
Proof.
  intros c.
  destruct (absolute_path_ignores_the_roots MemOS.os
              (RepoSyncer.__init__ "/elsewhere" "/dst" (Some "u") (Some "p"))
              Scenarios.syncer [] c (MemOS.start Scenarios.x_world)
              eq_refl eq_refl) as (H1 & _ & H3).
  split; [exact H1 | by rewrite H3].
Defined.

Lemma add_and_delete_status_is_ignored_witness :
  let c := {| RepoSyncer.revision := Some "1"; RepoSyncer.action := "A";
              RepoSyncer.path := "a.txt" |} in
  returncode (MemOS.reply Scenarios.add_fails_world "add") = 1
  /\ fst (RepoSyncer.replay_change MemOS.os Scenarios.syncer [] c
            (MemOS.start Scenarios.add_fails_world))
     = Ok ["/dst/a.txt"].
Proof.
  intros c. split; [reflexivity|].
  destruct (add_and_delete_status_is_ignored MemOS.os Scenarios.syncer [] c)
    as [Hadd _].
  erewrite (Hadd (MemOS.start Scenarios.add_fails_world));
    [reflexivity | reflexivity | split_pair | split_pair | split_pair].
Defined.

Lemma sync_result_is_the_commit_status_witness :
  fst (RepoSyncer.sync_changes MemOS.os Scenarios.syncer
         (MemOS.start Scenarios.add_fails_world)) = Ok true.
Proof.
  edestruct (sync_result_is_the_commit_status MemOS.os Scenarios.syncer
               (MemOS.start Scenarios.add_fails_world)) as [];
    [split_pair | split_pair | discriminate | split_pair |].
  run_mem.
Defined.

Lemma update_repos_short_circuits_witness :
  RepoSyncer.update_repos MemOS.os Scenarios.syncer
    (MemOS.start Scenarios.update_fails_world)
  = (Ok false,
     after (MemOS.start Scenarios.update_fails_world)
       (RepoSyncer.update_call (RepoSyncer.repo1 Scenarios.syncer))
       Scenarios.update_fails_world).
Proof.
  edestruct (update_repos_short_circuits MemOS.os Scenarios.syncer
               (MemOS.start Scenarios.update_fails_world)) as [H _];
    [split_pair|].
  rewrite H by (vm_compute; discriminate). run_mem.
Defined.

Lemma destination_stays_under_the_target_root_witness :
  let change := {| SVNRepoSync.path := "/src/x"; SVNRepoSync.action := "ADD" |} in
  String.prefix "/dst" "/dst/src/x" = true
  /\ MemOS.files
       (world (snd (SVNRepoSync.replay_change MemOS.os Scenarios.xml_syncer tt
                      change (MemOS.start Scenarios.x_world)))) !! "/dst/src/x"
     = Some "x"
  /\ argv (SVNRepoSync.cat_call Scenarios.xml_syncer change)
     = ["svn"; "cat"; "/src/x"].
Proof.
  intros change.
  edestruct (destination_stays_under_the_target_root MemOS.os Scenarios.xml_syncer
               change (MemOS.start Scenarios.x_world))
    as (Hp & Hrun & Hcat);
    [by left | split_pair | split_pair | run_mem |].
  split; [exact Hp|]. split; [|by apply Hcat].
  rewrite Hrun. clear Hrun Hcat Hp. run_mem.
Defined.

Lemma failed_cat_writes_nothing_witness :
  let change := {| SVNRepoSync.path := "missing.txt"; SVNRepoSync.action := "ADD" |} in
  SVNRepoSync.replay_change MemOS.os Scenarios.xml_syncer tt change
    (MemOS.start Scenarios.x_world)
  = (Ok tt,
     {| world := Scenarios.x_world;
        calls := [SVNRepoSync.cat_call Scenarios.xml_syncer change] |}).
Proof.
  intros change.
  apply (failed_cat_writes_nothing MemOS.os Scenarios.xml_syncer change
           (MemOS.start Scenarios.x_world) Scenarios.x_world Scenarios.x_world
           (MemOS.failed "E200009"));
    [by left | run_mem | run_mem | discriminate].
Defined.

Lemma commit_follows_a_failed_add_witness :
  fst (SVNRepoSync.commit_changes MemOS.os Scenarios.xml_syncer "m"
         (MemOS.start Scenarios.add_fails_world)) = Ok tt
  /\ map verb_of (calls (snd (SVNRepoSync.commit_changes MemOS.os
                                Scenarios.xml_syncer "m"
                                (MemOS.start Scenarios.add_fails_world))))
     = ["add"; "commit"].
Proof.
  edestruct (commit_follows_a_failed_add MemOS.os Scenarios.xml_syncer "m"
               (MemOS.start Scenarios.add_fails_world)) as [];
    [split_pair | split_pair |].
  split; run_mem.
Defined.

Lemma missing_binary_is_an_exit_status_witness :
  fst (SVNRepoSync.script MemOS.os Scenarios.xml_syncer
         (MemOS.start Scenarios.no_svn_world))
  = Raise (Exception "SVN update failed: svn command not found")
  /\ fst (SVNRepoSync.get_recent_commits MemOS.os Scenarios.xml_syncer "/src" 100
            (MemOS.start Scenarios.no_svn_world)) = Ok [].
Proof.
  destruct (missing_binary_is_an_exit_status MemOS.os Scenarios.xml_syncer
              ["update"] (Some "/dst") (MemOS.start Scenarios.no_svn_world)
              Scenarios.no_svn_world) as (_ & _ & Hscript & Hlog).
  split.
  - rewrite Hscript; [reflexivity | run_mem].
  - exact (f_equal fst (Hlog ltac:(run_mem))).
Defined.
